(** * geo-scraper: the scoring and projection engine

    A shallow embedding of [src/analyzer/geo-auditor.ts] (the rule
    evaluators and the weighted aggregation of [auditSite]) and of the
    projection simulator [generateProjectedAudit] of the comparison report
    ([src/generators/tdmrep-json.ts], lines 286-359), followed by the
    properties the specification states about them.

    Modelling conventions.
    - A JavaScript [number] is an exact rational ([Q]).  The engine only
      adds, multiplies, divides and compares small counts and scores;
      rounding error of IEEE doubles, [NaN] and the infinities are outside
      the model.  A division is written where the source writes one, under
      the guard the source puts around it.
    - [Math.round x] is [floor (x + 1/2)].
    - A JavaScript string is a [string] of bytes.  Whitespace, line
      terminators and letter case are the ASCII ones; text outside ASCII is
      carried through unchanged.
    - [T | null] is [option T]; the truthiness test [!content] of a
      [string | null] holds for [null] and for the empty string.
    - The clock and the date parser used by the freshness evaluator are
      passed in explicitly ([Env]). *)

From Stdlib Require Import List String Ascii Bool Arith ZArith QArith Qround.
From Stdlib Require Import Lia Lqa DecimalString.
Import ListNotations.

Open Scope string_scope.
Open Scope Q_scope.

(** ** JavaScript numbers *)

Abbreviation number := Q.

Definition Math_round (x : number) : Z := Qfloor (x + (1 # 2)).

Definition Qlt_bool (x y : Q) : bool := negb (Qle_bool y x).

Definition of_nat (n : nat) : number := inject_Z (Z.of_nat n).

(** ** JavaScript strings *)

Definition code (c : ascii) : nat := nat_of_ascii c.

(** [\s] restricted to ASCII: tab, line feed, vertical tab, form feed,
    carriage return, space. *)
Definition is_space (c : ascii) : bool :=
  let n := code c in
  ((9 <=? n) && (n <=? 13))%nat || (n =? 32)%nat.

(** The characters [.] does not match. *)
Definition is_line_terminator (c : ascii) : bool :=
  let n := code c in
  (n =? 10)%nat || (n =? 13)%nat.

Definition lower_char (c : ascii) : ascii :=
  let n := code c in
  if ((65 <=? n) && (n <=? 90))%nat then ascii_of_nat (n + 32) else c.

Fixpoint toLowerCase (s : string) : string :=
  match s with
  | EmptyString => EmptyString
  | String c r => String (lower_char c) (toLowerCase r)
  end.

Fixpoint trimStart (s : string) : string :=
  match s with
  | EmptyString => EmptyString
  | String c r => if is_space c then trimStart r else s
  end.

Fixpoint trimEnd (s : string) : string :=
  match s with
  | EmptyString => EmptyString
  | String c r =>
      match trimEnd r with
      | EmptyString => if is_space c then EmptyString else String c EmptyString
      | r' => String c r'
      end
  end.

Definition trim (s : string) : string := trimEnd (trimStart s).

Fixpoint all_chars (p : ascii -> bool) (s : string) : bool :=
  match s with
  | EmptyString => true
  | String c r => p c && all_chars p r
  end.

Fixpoint any_char (p : ascii -> bool) (s : string) : bool :=
  match s with
  | EmptyString => false
  | String c r => p c || any_char p r
  end.

(** [s.startsWith(p)] *)
Fixpoint startsWith (s p : string) : bool :=
  match p, s with
  | EmptyString, _ => true
  | String a p', String b s' => Ascii.eqb a b && startsWith s' p'
  | String _ _, EmptyString => false
  end.

(** [s.includes(t)] *)
Fixpoint includes (s t : string) : bool :=
  startsWith s t ||
  match s with
  | EmptyString => false
  | String _ r => includes r t
  end.

(** The rest of [s] after the literal [p], compared without regard to
    ASCII letter case ([p] is given in lower case). *)
Fixpoint after_prefix_ci (p s : string) : option string :=
  match p, s with
  | EmptyString, _ => Some s
  | String a p', String b s' =>
      if Ascii.eqb a (lower_char b) then after_prefix_ci p' s' else None
  | String _ _, EmptyString => None
  end.

(** [s.split('\n')] *)
Fixpoint split_newline (s : string) : list string :=
  match s with
  | EmptyString => [EmptyString]
  | String c r =>
      if (code c =? 10)%nat then EmptyString :: split_newline r
      else match split_newline r with
           | h :: t => String c h :: t
           | [] => [String c EmptyString]
           end
  end.

(** The number of matches of a global regex for the literal [t]
    ([(s.match(/t/g) || []).length]); the scan resumes after each match. *)
Fixpoint count_matches_from (fuel : nat) (s t : string) : nat :=
  match fuel with
  | O => O
  | S fuel' =>
      if startsWith s t then
        S (count_matches_from fuel' (substring (length t) (length s) s) t)
      else match s with
           | EmptyString => O
           | String _ r => count_matches_from fuel' r t
           end
  end.

Definition count_matches (s t : string) : nat :=
  match t with
  | EmptyString => S (length s)
  | _ => count_matches_from (S (length s)) s t
  end.

(** [String(n)] for a count. *)
Definition show (n : nat) : string := NilEmpty.string_of_uint (Nat.to_uint n).

(** [xs.join(sep)] *)
Definition join (sep : string) (xs : list string) : string :=
  String.concat sep xs.

Definition dquote : string := String (ascii_of_nat 34) EmptyString.

(** Truthiness of a [string | null]. *)
Definition truthy (o : option string) : bool :=
  match o with
  | Some s => negb (String.eqb s EmptyString)
  | None => false
  end.

(** [a || b] on [string | null] values. *)
Definition or_else (a b : option string) : option string :=
  if truthy a then a else b.

(** [[...new Set(xs)]]: the distinct elements in order of first
    occurrence. *)
Fixpoint set_insert_all (xs seen : list string) : list string :=
  match xs with
  | [] => seen
  | x :: r =>
      if existsb (String.eqb x) seen then set_insert_all r seen
      else set_insert_all r (seen ++ [x])
  end.

Definition unique (xs : list string) : list string := set_insert_all xs [].

Definition Math_min (x y : number) : number := if Qle_bool x y then x else y.

Definition Math_max (x y : number) : number := if Qle_bool x y then y else x.

(** ** The audit data model ([geo-auditor.ts], lines 8-29) *)

Inductive Category := critical | high | medium | low.

Inductive Status := pass | partial | fail | not_applicable.

Record AuditItem := mkItem {
  name : string;
  category : Category;
  score : number;
  maxScore : number;
  status : Status;
  details : string;
  recommendation : string
}.

Record Tally := mkTally { passed : nat; total : nat }.

Record Summary := mkSummary {
  s_critical : Tally;
  s_high : Tally;
  s_medium : Tally;
  s_low : Tally
}.

Record AuditResult := mkResult {
  overallScore : number;
  maxPossibleScore : number;
  grade : string;
  items : list AuditItem;
  summary : Summary
}.

Definition summary_get (s : Summary) (c : Category) : Tally :=
  match c with
  | critical => s_critical s
  | high => s_high s
  | medium => s_medium s
  | low => s_low s
  end.

Definition summary_set (s : Summary) (c : Category) (t : Tally) : Summary :=
  match c with
  | critical => mkSummary t (s_high s) (s_medium s) (s_low s)
  | high => mkSummary (s_critical s) t (s_medium s) (s_low s)
  | medium => mkSummary (s_critical s) (s_high s) t (s_low s)
  | low => mkSummary (s_critical s) (s_high s) (s_medium s) t
  end.

Definition empty_summary : Summary :=
  mkSummary (mkTally 0 0) (mkTally 0 0) (mkTally 0 0) (mkTally 0 0).

Definition counts_as_passed (s : Status) : bool :=
  match s with
  | pass | partial => true
  | _ => false
  end.

(** The accumulators of the scoring loop, which both [auditSite] and
    [generateProjectedAudit] run over their item list. *)
Record Totals := mkTotals {
  totalWeightedScore : number;
  totalWeightedMax : number;
  tally : Summary
}.

Definition initial_totals : Totals := mkTotals 0 0 empty_summary.

(** One iteration of [for (const item of items) { ... }]. *)
Definition score_loop_body (weight_of : Category -> number)
    (acc : Totals) (item : AuditItem) : Totals :=
  let weight := weight_of (category item) in
  let t := summary_get (tally acc) (category item) in
  let t1 := mkTally (passed t) (S (total t)) in
  let t2 := if counts_as_passed (status item)
            then mkTally (S (passed t1)) (total t1) else t1 in
  mkTotals (totalWeightedScore acc + score item * weight)
           (totalWeightedMax acc + maxScore item * weight)
           (summary_set (tally acc) (category item) t2).

Definition score_loop (weight_of : Category -> number)
    (its : list AuditItem) : Totals :=
  fold_left (score_loop_body weight_of) its initial_totals.

(** ** The crawl result ([crawler/page-data.ts])

    Only the fields the auditor reads are kept. *)

Record PageMeta := mkMeta {
  description : string;
  canonical : option string;
  ogTitle : option string;
  ogDescription : option string;
  publishedDate : option string;
  modifiedDate : option string;
  robots : option string;
  googleVerification : option string;
  bingVerification : option string
}.

Record HeadingNode := mkHeading { level : number; text : string }.

Record FAQItem := mkFAQ { question : string; answer : string }.

Record PageContent := mkContent {
  headings : list HeadingNode;
  wordCount : number;
  faqItems : list FAQItem
}.

(** A JSON-LD object, [Record<string, unknown>], seen through the three
    keys the auditor reads; a key that is absent or holds a falsy value is
    [None] (or the empty string). *)
Record JsonLdItem := mkJsonLd {
  at_type : option string;
  dateModified : option string;
  datePublished : option string
}.

Record ExistingStructuredData := mkStructured { jsonLd : list JsonLdItem }.

Record PageData := mkPage {
  url : string;
  meta : PageMeta;
  content : PageContent;
  existingStructuredData : ExistingStructuredData;
  lastModified : option string;
  responseHeaders : list (string * string)
}.

Record ExistingGeoFiles := mkGeoFiles {
  robotsTxt : option string;
  sitemapXml : option string;
  llmsTxt : option string;
  llmsFullTxt : option string;
  aiTxt : option string;
  aiJson : option string;
  securityTxt : option string;
  tdmrepJson : option string;
  humansTxt : option string;
  manifestJson : option string;
  bingSiteAuth : option string
}.

Record SiteCrawlResult := mkCrawl {
  baseUrl : string;
  domain : string;
  pages : list PageData;
  existingGeoFiles : ExistingGeoFiles
}.

(** [Date.now()] and [new Date(s).getTime()] ([None] is [NaN]). *)
Record Env := mkEnv {
  now : number;
  getTime : string -> option number
}.

(** [headers[key]] *)
Fixpoint header (key : string) (hs : list (string * string)) : option string :=
  match hs with
  | [] => None
  | (k, v) :: rest => if String.eqb k key then Some v else header key rest
  end.

(** A counter incremented in a [for (const x of xs)] loop whenever [p x]. *)
Definition count_if {A : Type} (p : A -> bool) (xs : list A) : nat :=
  fold_left (fun n x => if p x then S n else n) xs 0%nat.

(** ** Regular expressions of the auditor *)

(** [re] anchored by [^] under the [m] flag: at the start of the input or
    right after a line terminator. *)
Fixpoint at_line_start (here : bool) (re : string -> bool) (s : string)
    : bool :=
  (here && re s) ||
  match s with
  | EmptyString => false
  | String c r => at_line_start (is_line_terminator c) re r
  end.

(** An unanchored [re]: at any position. *)
Fixpoint anywhere (re : string -> bool) (s : string) : bool :=
  re s ||
  match s with
  | EmptyString => false
  | String _ r => anywhere re r
  end.

(** [.+] followed by [k]: one or more characters other than line
    terminators, then the continuation. *)
Fixpoint dot_plus (k : string -> bool) (s : string) : bool :=
  match s with
  | EmptyString => false
  | String c r => negb (is_line_terminator c) && (k r || dot_plus k r)
  end.

Definition accept (_ : string) : bool := true.

(** [lit] followed by [k]. *)
Definition literal (lit : string) (k : string -> bool) (s : string) : bool :=
  startsWith s lit && k (substring (length lit) (length s) s).

(** [/^# .+/m], [/^> .+/m], [/^## .+/m] *)
Definition marked_line (mark : string) (s : string) : bool :=
  at_line_start true (literal mark (dot_plus accept)) s.

(** [/\[.+\]\(.+\)/] *)
Definition has_markdown_link (s : string) : bool :=
  anywhere
    (literal "[" (dot_plus (literal "](" (dot_plus (literal ")" accept))))) s.

(** [/^Sitemap:/im] *)
Definition has_sitemap_directive (s : string) : bool :=
  at_line_start true
    (fun r => match after_prefix_ci "sitemap:" r with
              | Some _ => true
              | None => false
              end) s.

(** [line.match(/^User-agent:\s*(.+)$/i)] on a trimmed line: the captured
    group, if the line matches.  The greedy [\s*] leaves the group starting
    at the first character that is not whitespace; the group reaches the end
    of the line and holds no line terminator. *)
Definition agentMatch (line : string) : option string :=
  match after_prefix_ci "user-agent:" line with
  | Some rest =>
      let group := trimStart rest in
      match group with
      | EmptyString => None
      | _ => if any_char is_line_terminator group then None else Some group
      end
  | None => None
  end.

(** [^<directive>:\s*\/\s*$] without regard to case. *)
Definition full_path_directive (directive line : string) : bool :=
  match after_prefix_ci directive line with
  | Some rest =>
      match trimStart rest with
      | String c tail => Ascii.eqb c "/"%char && all_chars is_space tail
      | EmptyString => false
      end
  | None => false
  end.

(** [line.match(/^Disallow:\s*\/\s*$/i)] *)
Definition disallowMatch (line : string) : bool :=
  full_path_directive "disallow:" line.

(** [/^Allow:\s*\/\s*$/i.test(line)] *)
Definition allowMatch (line : string) : bool :=
  full_path_directive "allow:" line.

(** [!line.startsWith('#') && line.length > 0] *)
Definition is_directive_line (line : string) : bool :=
  negb (startsWith line "#") && (0 <? length line)%nat.

(** [content.split('\n').map(l => l.trim())] *)
Definition lines_of (content : string) : list string :=
  map trim (split_newline content).

(** ** [geo-auditor.ts]: the rule evaluators *)

Module GeoAuditor.

(** [coverage >= 0.8 ? 'pass' : coverage >= 0.5 ? 'partial' : 'fail'] *)
Definition coverage_status (coverage : number) : Status :=
  if Qle_bool (8 # 10) coverage then pass
  else if Qle_bool (1 # 2) coverage then partial
  else fail.

(** [score >= 60 ? 'pass' : score > 0 ? 'partial' : 'fail'] *)
Definition score_status (score : number) : Status :=
  if Qle_bool 60 score then pass
  else if Qlt_bool 0 score then partial
  else fail.

(** [pages.length > 0 ? n / pages.length : 0] *)
Definition fraction_of (n : nat) (pages : list PageData) : number :=
  if (0 <? List.length pages)%nat then of_nat n / of_nat (List.length pages) else 0.

(** The five checks [auditSite] writes inline: a file that is present
    scores 100. *)
Definition presence_item (file : option string) (name : string)
    (category : Category) (found missing good advice : string) : AuditItem :=
  mkItem name category
         (if truthy file then 100 else 0)
         100
         (if truthy file then pass else fail)
         (if truthy file then found else missing)
         (if truthy file then good else advice).

Definition auditRobotsTxt (content : option string) : AuditItem :=
  match content with
  | None | Some EmptyString =>
      mkItem "robots.txt" critical 0 100 fail
        "No robots.txt found"
        "Add /robots.txt with explicit AI crawler directives (GPTBot, ClaudeBot, PerplexityBot, etc.)"
  | Some content =>
      let aiCrawlers := ["GPTBot"; "ClaudeBot"; "Google-Extended";
                         "PerplexityBot"; "Applebot-Extended"] in
      let mentioned := filter (fun c => includes content c) aiCrawlers in
      if (List.length mentioned =? 0)%nat then
        mkItem "robots.txt" critical 30 100 partial
          "robots.txt exists but has no AI crawler directives"
          ("Add explicit directives for AI crawlers: " ++ join ", " aiCrawlers)
      else
        let score :=
          Math_min 100
            (30 + (of_nat (List.length mentioned) / of_nat (List.length aiCrawlers)) * 70)
        in
        mkItem "robots.txt" critical
          (inject_Z (Math_round score))
          100
          (if (3 <=? List.length mentioned)%nat then pass else partial)
          ("robots.txt mentions " ++ show (List.length mentioned) ++ "/"
             ++ show (List.length aiCrawlers) ++ " key AI crawlers: "
             ++ join ", " mentioned)
          (if (List.length mentioned <? List.length aiCrawlers)%nat
           then "Add directives for: "
                  ++ join ", "
                       (filter (fun c => negb (existsb (String.eqb c) mentioned))
                               aiCrawlers)
           else "robots.txt has comprehensive AI crawler coverage")
  end.

Definition auditSitemap (content : option string) (pageCount : nat)
    : AuditItem :=
  match content with
  | None | Some EmptyString =>
      mkItem "sitemap.xml" critical 0 100 fail
        "No sitemap.xml found"
        "Add /sitemap.xml with all discoverable URLs"
  | Some content =>
      let urlCount := count_matches content "<loc>" in
      let hasLastmod := includes content "<lastmod>" in
      let score := 50 in
      let score := if (0 <? urlCount)%nat then score + 25 else score in
      let score := if hasLastmod then score + 25 else score in
      mkItem "sitemap.xml" critical score 100
        (if Qle_bool 75 score then pass else partial)
        ("Sitemap contains " ++ show urlCount ++ " URLs"
           ++ (if hasLastmod then " with lastmod dates" else " (no lastmod)")
           ++ ". Crawled " ++ show pageCount ++ " pages.")
        (if negb hasLastmod
         then "Add <lastmod> dates to sitemap entries for freshness signals"
         else "Sitemap is well-configured")
  end.

Definition yes_no (b : bool) : string := if b then "yes" else "no".

Definition auditLlmsTxt (content : option string) : AuditItem :=
  match content with
  | None | Some EmptyString =>
      mkItem "llms.txt" critical 0 100 fail
        "No llms.txt found"
        "Add /llms.txt following the llmstxt.org spec: H1 site name, blockquote summary, H2 sections with link lists"
  | Some content =>
      let score := 40 in
      let hasH1 := marked_line "# " content in
      let hasBlockquote := marked_line "> " content in
      let hasH2 := marked_line "## " content in
      let hasLinks := has_markdown_link content in
      let score := if hasH1 then score + 15 else score in
      let score := if hasBlockquote then score + 15 else score in
      let score := if hasH2 then score + 15 else score in
      let score := if hasLinks then score + 15 else score in
      mkItem "llms.txt" critical score 100
        (if Qle_bool 70 score then pass else partial)
        ("llms.txt found — H1: " ++ yes_no hasH1
           ++ ", Blockquote: " ++ yes_no hasBlockquote
           ++ ", H2 sections: " ++ yes_no hasH2
           ++ ", Links: " ++ yes_no hasLinks)
        (if Qlt_bool score 100
         then "Ensure llms.txt has: # Site Name, > summary blockquote, ## Sections with [link](url) lists"
         else "llms.txt follows the spec correctly")
  end.

(** [(item['@type'] as string) || 'unknown'] *)
Definition type_of (item : JsonLdItem) : string :=
  if truthy (at_type item)
  then match at_type item with Some t => t | None => "unknown" end
  else "unknown".

Definition hasJsonLd (page : PageData) : bool :=
  (0 <? List.length (jsonLd (existingStructuredData page)))%nat.

(** The [schemaTypes] set after the loop over the pages. *)
Definition schemaTypes_of (pages : list PageData) : list string :=
  unique
    (flat_map (fun page => map type_of (jsonLd (existingStructuredData page)))
              (filter hasJsonLd pages)).

Definition auditStructuredData (crawlResult : SiteCrawlResult) : AuditItem :=
  let pages := pages crawlResult in
  let pagesWithJsonLd := count_if hasJsonLd pages in
  let totalJsonLdItems :=
    fold_left
      (fun n page =>
         if hasJsonLd page
         then (n + List.length (jsonLd (existingStructuredData page)))%nat else n)
      pages 0%nat in
  let schemaTypes := schemaTypes_of pages in
  if (totalJsonLdItems =? 0)%nat then
    mkItem "Structured Data (JSON-LD)" critical 0 100 fail
      "No JSON-LD structured data found on any page"
      "Add JSON-LD Schema.org markup: Organization on homepage, Article on blog posts, FAQPage on FAQ sections, Product on product pages"
  else
    let coverage := fraction_of pagesWithJsonLd pages in
    let hasOrganization := existsb (String.eqb "Organization") schemaTypes in
    let hasWebSite := existsb (String.eqb "WebSite") schemaTypes in
    let score := Math_min 50 (inject_Z (Math_round (coverage * 50))) in
    let score := if hasOrganization then score + 20 else score in
    let score := if hasWebSite then score + 15 else score in
    let score := if (3 <=? List.length schemaTypes)%nat then score + 15 else score in
    mkItem "Structured Data (JSON-LD)" critical
      (Math_min 100 score)
      100
      (if Qle_bool 60 score then pass else partial)
      (show pagesWithJsonLd ++ "/" ++ show (List.length pages)
         ++ " pages have JSON-LD (" ++ show totalJsonLdItems
         ++ " total items). Types: "
         ++ (match join ", " schemaTypes with
             | EmptyString => "none"
             | joined => joined
             end))
      (if negb hasOrganization
       then "Add Organization schema to homepage for entity disambiguation"
       else if Qlt_bool coverage (1 # 2)
       then "Increase JSON-LD coverage — aim for structured data on every significant page"
       else "Good structured data coverage").

Definition auditServerRendering (crawlResult : SiteCrawlResult) : AuditItem :=
  let pages := pages crawlResult in
  let ssrPages :=
    count_if (fun page => Qlt_bool 50 (wordCount (content page))) pages in
  let coverage := fraction_of ssrPages pages in
  let score := inject_Z (Math_round (coverage * 100)) in
  mkItem "Server-side Rendering" critical score 100
    (coverage_status coverage)
    (show ssrPages ++ "/" ++ show (List.length pages)
       ++ " pages have server-rendered content (>50 words without JS)")
    (if Qlt_bool coverage (8 # 10)
     then "AI crawlers cannot execute JavaScript — ensure content is in initial HTML response via SSR/SSG"
     else "Content renders without JavaScript — good!").

Definition auditAiPolicy (aiTxt aiJson : option string) : AuditItem :=
  let hasTxt := truthy aiTxt in
  let hasJson := truthy aiJson in
  if negb hasTxt && negb hasJson then
    mkItem "AI Policy (ai.txt / ai.json)" high 0 100 fail
      "No ai.txt or ai.json found"
      "Add /ai.txt and /ai.json to define AI interaction permissions, restrictions, and attribution requirements"
  else
    let score := if hasTxt then 50 else 0 in
    let score := score + (if hasJson then 50 else 0) in
    mkItem "AI Policy (ai.txt / ai.json)" high score 100
      (if hasTxt && hasJson then pass else partial)
      ("ai.txt: " ++ (if hasTxt then "found" else "missing")
         ++ ", ai.json: " ++ (if hasJson then "found" else "missing"))
      (if negb hasTxt then "Add /ai.txt for human-readable AI policy"
       else if negb hasJson
       then "Add /ai.json for machine-parseable AI policy"
       else "Both AI policy files are present").

Definition auditMetaDescriptions (crawlResult : SiteCrawlResult) : AuditItem :=
  let pages := pages crawlResult in
  let withDescription :=
    count_if (fun page => (30 <=? String.length (description (meta page)))%nat) pages in
  let coverage := fraction_of withDescription pages in
  let score := inject_Z (Math_round (coverage * 100)) in
  mkItem "Meta Descriptions" high score 100
    (coverage_status coverage)
    (show withDescription ++ "/" ++ show (List.length pages)
       ++ " pages have meta descriptions (>=30 chars)")
    (if Qlt_bool coverage (8 # 10)
     then "Add meaningful meta descriptions to all pages — AI engines use these for summaries and citations"
     else "Good meta description coverage").

(** [for (let i = 1; ...) if (headings[i].level > headings[i - 1].level + 1)]:
    no heading is more than one level below the one before it. *)
Fixpoint noSkips (hs : list HeadingNode) : bool :=
  match hs with
  | a :: (b :: _) as rest =>
      if Qlt_bool (level a + 1) (level b) then false else noSkips rest
  | _ => true
  end.

Definition is_h1 (h : HeadingNode) : bool := Qeq_bool (level h) 1.

Definition hasHeadings (page : PageData) : bool :=
  (0 <? List.length (headings (content page)))%nat.

Definition correctHierarchy_page (page : PageData) : bool :=
  let headings := headings (content page) in
  if (List.length headings =? 0)%nat then false
  else
    let hasH1 := existsb is_h1 headings in
    let h1Count := List.length (filter is_h1 headings) in
    hasH1 && (h1Count =? 1)%nat && noSkips headings.

Definition auditHeadingHierarchy (crawlResult : SiteCrawlResult) : AuditItem :=
  let pages := pages crawlResult in
  let correctHierarchy := count_if correctHierarchy_page pages in
  let pagesWithHeadings := List.length (filter hasHeadings pages) in
  let coverage :=
    if (0 <? pagesWithHeadings)%nat
    then of_nat correctHierarchy / of_nat pagesWithHeadings else 0 in
  let score := inject_Z (Math_round (coverage * 100)) in
  mkItem "Heading Hierarchy" high score 100
    (coverage_status coverage)
    (show correctHierarchy ++ "/" ++ show pagesWithHeadings
       ++ " pages with headings have correct H1>H2>H3 hierarchy")
    (if Qlt_bool coverage (8 # 10)
     then "Fix heading hierarchy: single H1, no skipped levels (H1>H2>H3). LLMs use headings to understand content structure."
     else "Heading hierarchy is clean").

Definition auditOpenGraph (crawlResult : SiteCrawlResult) : AuditItem :=
  let pages := pages crawlResult in
  let withOG :=
    count_if (fun page => truthy (ogTitle (meta page))
                          && truthy (ogDescription (meta page))) pages in
  let coverage := fraction_of withOG pages in
  let score := inject_Z (Math_round (coverage * 100)) in
  mkItem "Open Graph Tags" medium score 100
    (coverage_status coverage)
    (show withOG ++ "/" ++ show (List.length pages)
       ++ " pages have OG title + description")
    (if Qlt_bool coverage (8 # 10)
     then "Add og:title and og:description to all pages for rich previews in AI responses"
     else "Good Open Graph coverage").

(** [page.meta.robots?.toLowerCase() || ''] *)
Definition robots_lower (page : PageData) : string :=
  match robots (meta page) with
  | Some r => toLowerCase r
  | None => EmptyString
  end.

(** [(page.responseHeaders['x-robots-tag'] || '').toLowerCase()] *)
Definition xRobotsTag_lower (page : PageData) : string :=
  match header "x-robots-tag" (responseHeaders page) with
  | Some v => toLowerCase v
  | None => EmptyString
  end.

Definition combined_directives (page : PageData) : string :=
  robots_lower page ++ " " ++ xRobotsTag_lower page.

Definition auditAiContentDirectives (crawlResult : SiteCrawlResult)
    : AuditItem :=
  let pages := pages crawlResult in
  let withMaxSnippet :=
    count_if (fun page => includes (combined_directives page) "max-snippet")
             pages in
  let withMaxImagePreview :=
    count_if (fun page =>
                includes (combined_directives page) "max-image-preview")
             pages in
  let hasDirectives :=
    (0 <? withMaxSnippet)%nat || (0 <? withMaxImagePreview)%nat in
  let coverage :=
    if (0 <? List.length pages)%nat
    then of_nat (Nat.max withMaxSnippet withMaxImagePreview)
         / of_nat (List.length pages)
    else 0 in
  let score := 0 in
  let score := if (0 <? withMaxSnippet)%nat then score + 50 else score in
  let score := if (0 <? withMaxImagePreview)%nat then score + 50 else score in
  let score :=
    inject_Z
      (Math_round
         (score * Math_max coverage (if hasDirectives then 1 # 2 else 0))) in
  mkItem "AI Content Directives" medium score 100
    (if Qle_bool 60 score then pass
     else if Qlt_bool 0 score then partial else fail)
    (if hasDirectives
     then "max-snippet on " ++ show withMaxSnippet
            ++ " pages, max-image-preview on " ++ show withMaxImagePreview
            ++ " pages"
     else "No max-snippet or max-image-preview directives found")
    (if negb hasDirectives
     then "Add <meta name=" ++ dquote ++ "robots" ++ dquote ++ " content="
            ++ dquote ++ "max-snippet:-1, max-image-preview:large" ++ dquote
            ++ "> to allow AI engines to use full content in responses"
     else if Qlt_bool coverage (8 # 10)
     then "Increase coverage of max-snippet and max-image-preview across all pages"
     else "AI content directives are well-configured").

(** *** robots.txt directive scan *)

(** The loop of [hasExplicitAllow]; [inBotBlock] is its flag. *)
Fixpoint hasExplicitAllow_from (botName : string) (lines : list string)
    (inBotBlock : bool) : bool :=
  match lines with
  | [] => false
  | line :: rest =>
      match agentMatch line with
      | Some group =>
          hasExplicitAllow_from botName rest
            (String.eqb (toLowerCase (trim group)) (toLowerCase botName))
      | None =>
          if inBotBlock && allowMatch line then true
          else if is_directive_line line
          then hasExplicitAllow_from botName rest false
          else hasExplicitAllow_from botName rest inBotBlock
      end
  end.

Definition hasExplicitAllow (robotsTxt botName : string) : bool :=
  hasExplicitAllow_from botName (lines_of robotsTxt) false.

Definition aiCrawlers : list string :=
  [ "GPTBot"; "OAI-SearchBot"; "ChatGPT-User"; "ClaudeBot"; "Claude-SearchBot";
    "Google-Extended"; "Applebot-Extended"; "Meta-ExternalAgent";
    "PerplexityBot"; "Amazonbot"; "CCBot"; "DuckAssistBot"; "Bytespider" ].

(** The state of the scan in [auditAiBotBlocking]. *)
Record Scan := mkScan {
  currentAgents : list string;
  blockedBots : list string
}.

(** What one agent of the current set pushes onto [blockedBots] at a
    [Disallow: /] line. *)
Definition blocked_by (content agent : string) : list string :=
  if String.eqb agent "*" then
    filter (fun bot => negb (hasExplicitAllow content bot)) aiCrawlers
  else
    match find (fun b => String.eqb (toLowerCase b) (toLowerCase agent))
               aiCrawlers with
    | Some matchedBot => [matchedBot]
    | None => []
    end.

(** One iteration of [for (const line of lines)]. *)
Definition scan_line (content : string) (st : Scan) (line : string) : Scan :=
  match agentMatch line with
  | Some group =>
      mkScan (currentAgents st ++ [trim group])%list (blockedBots st)
  | None =>
      let blocked :=
        if disallowMatch line && (0 <? List.length (currentAgents st))%nat
        then (blockedBots st
                ++ flat_map (blocked_by content) (currentAgents st))%list
        else blockedBots st in
      let agents := if is_directive_line line then [] else currentAgents st in
      mkScan agents blocked
  end.

Definition scan_lines (content : string) (st : Scan) (lines : list string)
    : Scan :=
  fold_left (scan_line content) lines st.

Definition blocked_crawlers (content : string) : list string :=
  unique (blockedBots (scan_lines content (mkScan [] []) (lines_of content))).

Definition auditAiBotBlocking (content : option string) : AuditItem :=
  match content with
  | None | Some EmptyString =>
      mkItem "AI Bot Blocking" critical 100 100 pass
        "No robots.txt found — AI bots are not blocked (but consider adding one with explicit Allow directives)"
        ("Add /robots.txt with explicit " ++ dquote ++ "Allow: /" ++ dquote
           ++ " for AI crawlers to signal openness")
  | Some content =>
      let uniqueBlocked := blocked_crawlers content in
      if (List.length uniqueBlocked =? 0)%nat then
        mkItem "AI Bot Blocking" critical 100 100 pass
          "No AI crawlers are blocked in robots.txt"
          "robots.txt does not block AI crawlers — good!"
      else
        let blockedPct :=
          of_nat (List.length uniqueBlocked) / of_nat (List.length aiCrawlers)
        in
        let score :=
          inject_Z (Math_round (Math_max 0 ((1 - blockedPct) * 100))) in
        mkItem "AI Bot Blocking" critical score 100
          (if Qlt_bool (1 # 2) blockedPct then fail else partial)
          (show (List.length uniqueBlocked) ++ "/"
             ++ show (List.length aiCrawlers) ++ " AI crawlers are blocked: "
             ++ join ", " uniqueBlocked)
          ("Remove " ++ dquote ++ "Disallow: /" ++ dquote
             ++ " for these AI crawlers to allow indexing: "
             ++ join ", " uniqueBlocked
             ++ ". 5.9% of sites accidentally block GPTBot.")
  end.

(** *** Content evaluators *)

(** [page.meta.modifiedDate || page.meta.publishedDate || page.lastModified] *)
Definition dateStr (page : PageData) : option string :=
  or_else (or_else (modifiedDate (meta page)) (publishedDate (meta page)))
          (lastModified page).

Definition twelveMonthsMs : number := 365 * 24 * 60 * 60 * 1000.

(** [!isNaN(ts) && (now - ts) < twelveMonthsMs] for a page that has a date. *)
Definition isRecent (env : Env) (page : PageData) : bool :=
  match dateStr page with
  | Some d =>
      truthy (Some d) &&
      match getTime env d with
      | Some ts => Qlt_bool (now env - ts) twelveMonthsMs
      | None => false
      end
  | None => false
  end.

Definition hasJsonLdDate (page : PageData) : bool :=
  existsb (fun ld => truthy (dateModified ld) || truthy (datePublished ld))
          (jsonLd (existingStructuredData page)).

Definition auditContentFreshness (env : Env) (crawlResult : SiteCrawlResult)
    : AuditItem :=
  let pages := pages crawlResult in
  if (List.length pages =? 0)%nat then
    mkItem "Content Freshness" high 0 100 not_applicable
      "No pages crawled"
      "Crawl pages to assess content freshness"
  else
    let pagesWithDate := count_if (fun page => truthy (dateStr page)) pages in
    let pagesRecent := count_if (isRecent env) pages in
    let pagesWithJsonLdDate := count_if hasJsonLdDate pages in
    let dateCoverage := of_nat pagesWithDate / of_nat (List.length pages) in
    let recencyRatio :=
      if (0 <? pagesWithDate)%nat
      then of_nat pagesRecent / of_nat pagesWithDate else 0 in
    let jsonLdDateRatio := fraction_of pagesWithJsonLdDate pages in
    let score :=
      Math_min 100
        (inject_Z
           (Math_round
              (dateCoverage * 50 + recencyRatio * 30 + jsonLdDateRatio * 20)))
    in
    mkItem "Content Freshness" high score 100
      (score_status score)
      (show pagesWithDate ++ "/" ++ show (List.length pages)
         ++ " pages have date signals, " ++ show pagesRecent
         ++ " updated within 12 months, " ++ show pagesWithJsonLdDate
         ++ " with JSON-LD dates")
      (if Qlt_bool score 60
       then "Add dateModified to JSON-LD and keep content updated — AI-cited content is 25.7% fresher than traditional results"
       else "Content freshness signals are strong").

Definition isThin (page : PageData) : bool :=
  Qlt_bool (wordCount (content page)) 300.

Definition isSubstantive (page : PageData) : bool :=
  Qlt_bool 500 (wordCount (content page)).

Definition isWellStructured (page : PageData) : bool :=
  isSubstantive page && (3 <=? List.length (headings (content page)))%nat.

Definition auditContentDepth (crawlResult : SiteCrawlResult) : AuditItem :=
  let pages := pages crawlResult in
  if (List.length pages =? 0)%nat then
    mkItem "Content Structure & Depth" high 0 100 not_applicable
      "No pages crawled"
      "Crawl pages to assess content depth"
  else
    let thinPages := count_if isThin pages in
    let substantivePages := count_if isSubstantive pages in
    let wellStructured := count_if isWellStructured pages in
    let thinRatio := of_nat thinPages / of_nat (List.length pages) in
    let depthRatio := of_nat substantivePages / of_nat (List.length pages) in
    let structureRatio :=
      if (0 <? substantivePages)%nat
      then of_nat wellStructured / of_nat substantivePages else 0 in
    let score :=
      Math_min 100
        (inject_Z
           (Math_round
              ((1 - thinRatio) * 30 + depthRatio * 40 + structureRatio * 30)))
    in
    mkItem "Content Structure & Depth" high score 100
      (score_status score)
      (show substantivePages ++ "/" ++ show (List.length pages)
         ++ " pages >500 words, " ++ show wellStructured
         ++ " well-structured (>=3 headings), " ++ show thinPages
         ++ " thin pages (<300 words)")
      (if Qlt_bool score 60
       then "Add more substantive content (>500 words) with clear heading structure (>=3 headings). AI engines chunk content by paragraphs under headings."
       else "Content depth and structure are solid").

Definition hasNoindex (page : PageData) : bool :=
  includes (robots_lower page) "noindex"
  || includes (xRobotsTag_lower page) "noindex".

(** The running [score], [signals] and [missing] of [auditSearchIndexing]. *)
Record Indexing := mkIndexing {
  ix_score : number;
  signals : list string;
  missing : list string
}.

Definition found (points : number) (signal : string) (ix : Indexing)
    : Indexing :=
  mkIndexing (ix_score ix + points) (signals ix ++ [signal])%list (missing ix).

Definition lacking (points : number) (what : string) (ix : Indexing)
    : Indexing :=
  mkIndexing (ix_score ix + points) (signals ix) (missing ix ++ [what])%list.

Definition auditSearchIndexing (crawlResult : SiteCrawlResult) : AuditItem :=
  let pages := pages crawlResult in
  let existingGeoFiles := existingGeoFiles crawlResult in
  let ix := mkIndexing 0 [] [] in
  (* 1. Google Search Console verification tag *)
  let hasGoogleVerification :=
    existsb (fun p => truthy (googleVerification (meta p))) pages in
  let ix :=
    if hasGoogleVerification
    then found 20 "Google Search Console verification" ix
    else lacking 0 "Google Search Console verification tag" ix in
  (* 2. Bing Webmaster Tools verification *)
  let hasBingMetaTag :=
    existsb (fun p => truthy (bingVerification (meta p))) pages in
  let hasBingSiteAuth := truthy (bingSiteAuth existingGeoFiles) in
  let ix :=
    if hasBingMetaTag || hasBingSiteAuth then
      let method :=
        if hasBingMetaTag && hasBingSiteAuth then "meta tag + BingSiteAuth.xml"
        else if hasBingMetaTag then "meta tag" else "BingSiteAuth.xml" in
      found 20 ("Bing Webmaster Tools verification (" ++ method ++ ")") ix
    else
      lacking 0
        "Bing Webmaster Tools verification (meta tag or BingSiteAuth.xml)" ix
  in
  (* 3. Sitemap referenced in robots.txt *)
  let robotsTxt :=
    match robotsTxt existingGeoFiles with
    | Some t => t
    | None => EmptyString
    end in
  let ix :=
    if has_sitemap_directive robotsTxt
    then found 20 "Sitemap in robots.txt" ix
    else lacking 0 "Sitemap directive in robots.txt" ix in
  (* 4. No noindex blocking *)
  let noindexPages := filter hasNoindex pages in
  let ix :=
    if (List.length noindexPages =? 0)%nat
    then found 20 "No noindex pages" ix
    else lacking 0 (show (List.length noindexPages) ++ " page(s) with noindex")
                 ix in
  (* 5. Canonical URLs *)
  let pagesWithCanonical :=
    filter (fun p => truthy (canonical (meta p))) pages in
  let canonicalCoverage :=
    fraction_of (List.length pagesWithCanonical) pages in
  let ix :=
    if Qle_bool (8 # 10) canonicalCoverage then
      found 20
        ("Canonical URLs set (" ++ show (List.length pagesWithCanonical) ++ "/"
           ++ show (List.length pages) ++ " pages)") ix
    else if Qlt_bool 0 canonicalCoverage then
      lacking (inject_Z (Math_round (20 * canonicalCoverage)))
        ("Canonical URLs on only " ++ show (List.length pagesWithCanonical)
           ++ "/" ++ show (List.length pages) ++ " pages") ix
    else lacking 0 "No canonical URLs set" ix in
  let score := ix_score ix in
  let details :=
    if (0 <? List.length (signals ix))%nat then
      "Indexing signals found: " ++ join ", " (signals ix)
        ++ (if (0 <? List.length (missing ix))%nat
            then ". Missing: " ++ join ", " (missing ix) else EmptyString)
    else "No indexing signals found. Missing: " ++ join ", " (missing ix) in
  let recommendation :=
    if Qeq_bool score 100 then
      "All search engine indexing signals are present — your site is well-configured for discovery"
    else if Qle_bool 50 score then
      "Partial indexing setup. Add missing signals: " ++ join ", " (missing ix)
    else
      "Your site is likely not indexed by search engines. Set up Google Search Console and Bing Webmaster Tools, add a Sitemap directive to robots.txt, set canonical URLs, and remove any noindex tags"
  in
  mkItem "Search Engine Indexing" critical score 100
    (if Qeq_bool score 100 then pass
     else if Qle_bool 50 score then partial else fail)
    details recommendation.

Definition isFAQPage (item : JsonLdItem) : bool :=
  match at_type item with
  | Some t => String.eqb t "FAQPage"
  | None => false
  end.

Definition auditFAQContent (crawlResult : SiteCrawlResult) : AuditItem :=
  let pages := pages crawlResult in
  let totalFAQs :=
    fold_left
      (fun n page =>
         let faqCount := List.length (faqItems (content page)) in
         if (0 <? faqCount)%nat then (n + faqCount)%nat else n)
      pages 0%nat in
  let pagesWithFAQ :=
    count_if (fun page => (0 <? List.length (faqItems (content page)))%nat)
             pages in
  let hasFAQPageSchema :=
    existsb (fun page => existsb isFAQPage (jsonLd (existingStructuredData page)))
            pages in
  if (totalFAQs =? 0)%nat then
    mkItem "FAQ Content" low 0 100 fail
      "No FAQ content detected on any page"
      "Add FAQ sections to high-traffic pages. FAQPage schema has the highest AI citation probability."
  else
    let score := Math_min 60 (of_nat totalFAQs * 15) in
    let score := if hasFAQPageSchema then score + 40 else score in
    let score := Math_min 100 score in
    let schemaNote :=
      if hasFAQPageSchema then " with FAQPage schema"
      else " (no FAQPage schema)" in
    mkItem "FAQ Content" low score 100
      (if Qle_bool 60 score then pass else partial)
      (show totalFAQs ++ " FAQ items on " ++ show pagesWithFAQ ++ " pages"
         ++ schemaNote)
      (if negb hasFAQPageSchema
       then "Add FAQPage JSON-LD schema markup alongside FAQ content for maximum AI citation rates"
       else if (totalFAQs <? 5)%nat
       then "Add more FAQ content to additional high-traffic pages"
       else "FAQ content with schema markup detected — good!").

(** *** Aggregation *)

(** [const weights = { critical: 3, high: 2, medium: 1, low: 0.5 }] *)
Definition weights (c : Category) : number :=
  match c with
  | critical => 3
  | high => 2
  | medium => 1
  | low => 1 # 2
  end.

Definition scoreToGrade (score : number) : string :=
  if Qle_bool 90 score then "A+"
  else if Qle_bool 80 score then "A"
  else if Qle_bool 70 score then "B"
  else if Qle_bool 60 score then "C"
  else if Qle_bool 50 score then "D"
  else "F".

(** The [items] array once every check has been pushed. *)
Definition audit_items (env : Env) (crawlResult : SiteCrawlResult)
    : list AuditItem :=
  let existingGeoFiles := existingGeoFiles crawlResult in
  let pages := pages crawlResult in
  [ auditRobotsTxt (robotsTxt existingGeoFiles);
    auditSitemap (sitemapXml existingGeoFiles) (List.length pages);
    auditLlmsTxt (llmsTxt existingGeoFiles);
    auditStructuredData crawlResult;
    auditServerRendering crawlResult;
    auditAiBotBlocking (robotsTxt existingGeoFiles);
    auditSearchIndexing crawlResult;
    presence_item (llmsFullTxt existingGeoFiles) "llms-full.txt" high
      ("Found llms-full.txt ("
         ++ show (match llmsFullTxt existingGeoFiles with
                  | Some t => String.length t
                  | None => 0%nat
                  end)
         ++ " chars)")
      "No llms-full.txt found"
      "llms-full.txt is present — good!"
      "Add /llms-full.txt with complete site content in markdown for bulk LLM ingestion";
    auditAiPolicy (aiTxt existingGeoFiles) (aiJson existingGeoFiles);
    auditMetaDescriptions crawlResult;
    auditHeadingHierarchy crawlResult;
    auditContentFreshness env crawlResult;
    auditContentDepth crawlResult;
    presence_item (securityTxt existingGeoFiles) "security.txt" medium
      "security.txt found at /.well-known/security.txt"
      "No security.txt found"
      "RFC 9116 security.txt is present"
      "Add /.well-known/security.txt per RFC 9116 with security contact info";
    presence_item (tdmrepJson existingGeoFiles) "tdmrep.json" medium
      "TDM reservation found"
      "No TDM reservation found"
      "W3C TDM reservation is present"
      "Add /.well-known/tdmrep.json to define text/data mining rights";
    auditOpenGraph crawlResult;
    auditAiContentDirectives crawlResult;
    presence_item (manifestJson existingGeoFiles) "manifest.json" medium
      "Web manifest found"
      "No web manifest found"
      "Web manifest is present"
      "Add manifest.json for site identity metadata";
    presence_item (humansTxt existingGeoFiles) "humans.txt" low
      "humans.txt found"
      "No humans.txt found"
      "humans.txt is present"
      "Add /humans.txt for team and technology info";
    auditFAQContent crawlResult ].

Definition auditSite (env : Env) (crawlResult : SiteCrawlResult)
    : AuditResult :=
  let items := audit_items env crawlResult in
  let acc := score_loop weights items in
  let overallScore :=
    if Qlt_bool 0 (totalWeightedMax acc)
    then inject_Z
           (Math_round (totalWeightedScore acc / totalWeightedMax acc * 100))
    else 0 in
  mkResult overallScore 100 (scoreToGrade overallScore) items (tally acc).

End GeoAuditor.

(** ** The comparison report: the projection simulator

    [generators/tdmrep-json.ts], lines 286-359. *)

Module ComparisonReport.

Record Improvement := mkImprovement { imp_score : number; note : string }.

Definition PROJECTED_IMPROVEMENTS : list (string * Improvement) :=
  [ ("robots.txt", mkImprovement 100 "AI crawler directives for 13 bots");
    ("AI Bot Blocking",
       mkImprovement 100 "Explicit Allow directives for all AI crawlers");
    ("sitemap.xml",
       mkImprovement 100 "Generated sitemap with all discovered URLs");
    ("llms.txt", mkImprovement 100 "Site structure per llmstxt.org spec");
    ("llms-full.txt",
       mkImprovement 100 "Full content dump for LLM ingestion");
    ("AI Policy (ai.txt / ai.json)",
       mkImprovement 100 "Machine + human-readable AI policy");
    ("security.txt", mkImprovement 100 "RFC 9116 security contact file");
    ("tdmrep.json",
       mkImprovement 100 "Text & data mining rights reservation");
    ("humans.txt", mkImprovement 100 "Team and technology credits");
    ("manifest.json", mkImprovement 100 "Web app identity manifest");
    ("Structured Data (JSON-LD)",
       mkImprovement 85 "Organization + WebSite schemas") ].

(** Property access [table[key]] on an object literal with distinct keys. *)
Fixpoint lookup {A : Type} (key : string) (table : list (string * A))
    : option A :=
  match table with
  | [] => None
  | (k, v) :: rest => if String.eqb k key then Some v else lookup key rest
  end.

(** The callback of [before.items.map(item => ...)]. *)
Definition project_item (item : AuditItem) : AuditItem :=
  match lookup (name item) PROJECTED_IMPROVEMENTS with
  | Some improvement =>
      if Qlt_bool (score item) (imp_score improvement) then
        mkItem (name item) (category item)
               (imp_score improvement)
               (maxScore item)
               (if Qle_bool 70 (imp_score improvement) then pass else partial)
               (note improvement)
               "Included in generated package"
      else item
  | None => item
  end.

(** [const weights: Record<string, number>]; a lookup that misses is
    [undefined]. *)
Definition weights (c : Category) : option number :=
  match c with
  | critical => Some 3
  | high => Some 2
  | medium => Some 1
  | low => Some (1 # 2)
  end.

(** [weights[item.category] ?? 1] *)
Definition weight_or_default (c : Category) : number :=
  match weights c with
  | Some w => w
  | None => 1
  end.

Definition scoreToGrade (score : number) : string :=
  if Qle_bool 90 score then "A+"
  else if Qle_bool 80 score then "A"
  else if Qle_bool 70 score then "B"
  else if Qle_bool 60 score then "C"
  else if Qle_bool 50 score then "D"
  else "F".

Definition generateProjectedAudit (before : AuditResult) : AuditResult :=
  let projectedItems := map project_item (items before) in
  let acc := score_loop weight_or_default projectedItems in
  let overallScore :=
    if Qlt_bool 0 (totalWeightedMax acc)
    then inject_Z
           (Math_round (totalWeightedScore acc / totalWeightedMax acc * 100))
    else 0 in
  mkResult overallScore 100 (scoreToGrade overallScore) projectedItems
           (tally acc).

End ComparisonReport.

(** ** The comparison report: what the page shows

    [generators/tdmrep-json.ts], lines 361-410 and 415-418: the colours and
    the split of the findings at the head of [generateComparisonHtml]. *)

Module ComparisonHtml.

Definition getGradeColor (grade : string) : string :=
  if startsWith grade "A" then "#22c55e"
  else if String.eqb grade "B" then "#3b82f6"
  else if String.eqb grade "C" then "#eab308"
  else if String.eqb grade "D" then "#f97316"
  else "#ef4444".

Definition getScoreColor (score : number) : string :=
  if Qle_bool 70 score then "#22c55e"
  else if Qle_bool 40 score then "#eab308"
  else "#ef4444".

(** The three arrays of [{ before, after }] pairs. *)
Record Buckets := mkBuckets {
  weFixItems : list (AuditItem * AuditItem);
  clientFixItems : list (AuditItem * AuditItem);
  alreadyGoodItems : list (AuditItem * AuditItem)
}.

Definition no_buckets : Buckets := mkBuckets [] [] [].

(** The body of [for (let i = 0; i < before.items.length; i++)]. *)
Definition place (b a : AuditItem) (acc : Buckets) : Buckets :=
  if Qlt_bool (score b) (score a) then
    mkBuckets (weFixItems acc ++ [(b, a)])%list (clientFixItems acc)
              (alreadyGoodItems acc)
  else if Qlt_bool (score b) 100 then
    mkBuckets (weFixItems acc) (clientFixItems acc ++ [(b, a)])%list
              (alreadyGoodItems acc)
  else
    mkBuckets (weFixItems acc) (clientFixItems acc)
              (alreadyGoodItems acc ++ [(b, a)])%list.

(** The loop over [before.items[i]] and [after.items[i]].  Where
    [after.items] has no element at [i], reading [a.score] throws a
    [TypeError]: that is [None]. *)
Fixpoint split_from (before_items after_items : list AuditItem)
    (acc : Buckets) : option Buckets :=
  match before_items with
  | [] => Some acc
  | b :: before_rest =>
      match after_items with
      | [] => None
      | a :: after_rest => split_from before_rest after_rest (place b a acc)
      end
  end.

Definition split_items (before after : AuditResult) : option Buckets :=
  split_from (items before) (items after) no_buckets.

(** [showImprovement && improvement ? improvement.note : b.recommendation]
    in [renderItemCard]. *)
Definition card_note (b : AuditItem) (showImprovement : bool) : string :=
  match ComparisonReport.lookup (name b)
          ComparisonReport.PROJECTED_IMPROVEMENTS with
  | Some improvement =>
      if showImprovement then ComparisonReport.note improvement
      else recommendation b
  | None => recommendation b
  end.

End ComparisonHtml.

(** ** The structured-data generator: page slugs

    [generators/tdmrep-json.ts], lines 271-275. *)

Module StructuredData.

Definition is_slash (c : ascii) : bool := Ascii.eqb c "/"%char.

Definition is_dot (c : ascii) : bool := Ascii.eqb c "."%char.

(** The match of [^\/+]: the slashes at the start are dropped. *)
Fixpoint drop_leading_slashes (s : string) : string :=
  match s with
  | EmptyString => EmptyString
  | String c r => if is_slash c then drop_leading_slashes r else s
  end.

(** The match of [\/+$]: the slashes at the end are dropped. *)
Fixpoint drop_trailing_slashes (s : string) : string :=
  match s with
  | EmptyString => EmptyString
  | String c r =>
      match drop_trailing_slashes r with
      | EmptyString => if is_slash c then EmptyString else String c EmptyString
      | r' => String c r'
      end
  end.

(** [.replace(/\//g, '-')] *)
Fixpoint dash_slashes (s : string) : string :=
  match s with
  | EmptyString => EmptyString
  | String c r => String (if is_slash c then "-"%char else c) (dash_slashes r)
  end.

(** [.replace(/\.[^.]+$/, '')]: the first dot that is followed, up to the
    end, by one or more characters other than dots, is cut off with them. *)
Fixpoint drop_extension (s : string) : string :=
  match s with
  | EmptyString => EmptyString
  | String c r =>
      if is_dot c && negb (String.eqb r EmptyString) && negb (any_char is_dot r)
      then EmptyString
      else String c (drop_extension r)
  end.

Definition pathToSlug (path : string) : string :=
  let slug := dash_slashes (drop_trailing_slashes (drop_leading_slashes path)) in
  let slug := if String.eqb slug EmptyString then "index" else slug in
  drop_extension slug.

End StructuredData.

(** * What the specification says, in its own words *)

Module Spec.

(** Tier weights of the aggregator. *)
Definition tier_weight (c : Category) : Q :=
  match c with
  | critical => 3
  | high => 2
  | medium => 1
  | low => 1 # 2
  end.

(** The sum over the findings of [f] times the weight of the tier. *)
Fixpoint weighted_sum (f : AuditItem -> Q) (its : list AuditItem) : Q :=
  match its with
  | [] => 0
  | it :: rest => f it * tier_weight (category it) + weighted_sum f rest
  end.

(** round(sum of score x weight / sum of maxScore x weight x 100), or 0
    if the denominator is 0. *)
Definition overall (its : list AuditItem) : Z :=
  if Qeq_bool (weighted_sum maxScore its) 0 then 0%Z
  else Math_round
         (weighted_sum score its / weighted_sum maxScore its * 100).

(** The grade step function. *)
Inductive grade_of (s : Q) : string -> Prop :=
| grade_A_plus : 90 <= s -> grade_of s "A+"
| grade_A : 80 <= s -> s < 90 -> grade_of s "A"
| grade_B : 70 <= s -> s < 80 -> grade_of s "B"
| grade_C : 60 <= s -> s < 70 -> grade_of s "C"
| grade_D : 50 <= s -> s < 60 -> grade_of s "D"
| grade_F : s < 50 -> grade_of s "F".

(** The name appears in the projection table, with this entry. *)
Definition in_table (n : string) (imp : ComparisonReport.Improvement) : Prop :=
  In (n, imp) ComparisonReport.PROJECTED_IMPROVEMENTS.

(** A finding is eligible when its name is in the table and its score is
    strictly below the table's target. *)
Definition eligible (item : AuditItem) : Prop :=
  exists imp, in_table (name item) imp
              /\ score item < ComparisonReport.imp_score imp.

(** What the projection makes of one finding. *)
Inductive projection_of (item : AuditItem) : AuditItem -> Prop :=
| projection_replaced : forall imp st,
    in_table (name item) imp ->
    score item < ComparisonReport.imp_score imp ->
    st = (if Qle_bool 70 (ComparisonReport.imp_score imp)
          then pass else partial) ->
    projection_of item
      (mkItem (name item) (category item) (ComparisonReport.imp_score imp)
              (maxScore item) st (ComparisonReport.note imp)
              "Included in generated package")
| projection_unchanged :
    ~ eligible item -> projection_of item item.

(** *** AI bot blocking *)



(** A line that ends a block: neither a [User-agent:] line, nor a
    comment, nor blank. *)
Definition ends_block (line : string) : bool :=
  match agentMatch line with
  | Some _ => false
  | None => is_directive_line line
  end.

(** The lines after the last line that ends a block. *)
Fixpoint since_last_directive (lines : list string) : list string :=
  match lines with
  | [] => []
  | l :: rest =>
      if existsb ends_block rest then since_last_directive rest
      else if ends_block l then rest
      else l :: rest
  end.

(** The agent a [User-agent:] line names. *)
Definition agent_named (line : string) : list string :=
  match agentMatch line with
  | Some group => [trim group]
  | None => []
  end.

(** The current user-agent set after [lines]: the agents named since the
    last line that ended a block. *)
Definition agents_in_force (lines : list string) : list string :=
  flat_map agent_named (since_last_directive lines).

(** The crawler has an explicit [Allow: /] in a block of its own: some
    [Allow: /] line is reached while the agent named last is the crawler,
    case aside. *)
Definition explicitly_allowed (content bot : string) : Prop :=
  exists before line after earlier agent,
    lines_of content = (before ++ line :: after)%list
    /\ allowMatch line = true
    /\ agents_in_force before = (earlier ++ [agent])%list
    /\ toLowerCase agent = toLowerCase bot.

(** An agent of the current set blocks a reference crawler at a
    [Disallow: /] line: the wildcard blocks every crawler without an explicit
    [Allow: /] of its own, a named agent blocks the crawler it names, case
    aside. *)
Definition blocks (content agent bot : string) : Prop :=
  In bot GeoAuditor.aiCrawlers
  /\ ((agent = "*" /\ ~ explicitly_allowed content bot)
      \/ toLowerCase bot = toLowerCase agent).

(** The directive scan marks the crawler blocked: some [Disallow: /] line
    is reached with a current agent that blocks it. *)
Definition marked_blocked (content bot : string) : Prop :=
  exists before line after agent,
    lines_of content = (before ++ line :: after)%list
    /\ disallowMatch line = true
    /\ In agent (agents_in_force before)
    /\ blocks content agent bot.

(** *** sitemap.xml *)

(** The text contains the tag. *)
Definition contains (content tag : string) : Prop :=
  exists before after, content = before ++ tag ++ after.

(** The pieces of a text cut at every [<loc>]. *)
Fixpoint pieces (s : string) : list string :=
  match s with
  | EmptyString => [EmptyString]
  | String c r =>
      if startsWith s "<loc>" then EmptyString :: pieces r
      else match pieces r with
           | h :: t => String c h :: t
           | [] => [String c EmptyString]
           end
  end.

(** The URL entries of a sitemap: the text from each [<loc>] up to the
    next one. *)
Definition entries (content : string) : list string := tl (pieces content).

(** Every entry carries a last-modified date. *)
Definition every_entry_dated (content : string) : bool :=
  forallb (fun entry => includes entry "<lastmod>") (entries content).

(** 50 for existing, plus 25 for at least one URL entry, plus 25 if every
    entry carries a last-modified date, capped at 100. *)
Definition sitemap_score_by_entry (content : string) : Q :=
  Math_min 100
    (50 + (if (0 <? List.length (entries content))%nat then 25 else 0)
        + (if every_entry_dated content then 25 else 0)).

(** The points a sitemap earns for a tag: 25 if the text contains it. *)
Inductive tag_points (content tag : string) : Q -> Prop :=
| tag_found : contains content tag -> tag_points content tag 25
| tag_missing : ~ contains content tag -> tag_points content tag 0.

(** *** Findings *)

(** 0 <= score <= maxScore = 100, and the status is one of the four. *)
Definition well_formed (it : AuditItem) : Prop :=
  0 <= score it /\ score it <= maxScore it /\ maxScore it = 100
  /\ In (status it) [pass; partial; fail; not_applicable].

(** *** robots.txt blocks *)



End Spec.

(** * Sample inputs *)

Module Samples.

Definition LF : string := String (ascii_of_nat 10) EmptyString.



Definition sitemap_one_loc : string :=
  "<urlset><url><loc>https://example.com/</loc></url></urlset>".

Definition sitemap_one_loc_lastmod : string :=
  "<urlset><url><loc>https://example.com/</loc><lastmod>2025-01-01</lastmod></url></urlset>".

(** Two entries, only the first with a last-modified date. *)
Definition sitemap_half_dated : string :=
  "<urlset><url><loc>https://example.com/a</loc><lastmod>2025-01-01</lastmod></url><url><loc>https://example.com/b</loc></url></urlset>".

(** Inputs of the repository's tests of the auditor. *)
Definition robots_allow_all : string := "User-agent: *" ++ LF ++ "Allow: /".

Definition robots_two_blocked : string :=
  "User-agent: GPTBot" ++ LF ++ "Disallow: /" ++ LF
    ++ "User-agent: ClaudeBot" ++ LF ++ "Disallow: /".

Definition robots_wildcard_block : string :=
  "User-agent: *" ++ LF ++ "Disallow: /" ++ LF
    ++ "User-agent: gptbot" ++ LF ++ "Allow: /".

Definition llms_complete : string :=
  "# Site" ++ LF ++ "> Summary" ++ LF ++ "## Docs" ++ LF ++ "- [Page](url)".

Definition llms_title_only : string :=
  "# My Site" ++ LF ++ "Some content without blockquote or sections".

Definition no_files : ExistingGeoFiles :=
  mkGeoFiles None None None None None None None None None None None.

(** A crawl that fetched no page. *)
Definition empty_crawl : SiteCrawlResult :=
  mkCrawl "https://example.com" "example.com" [] no_files.

(** The audit of the test "recalculates overall score with correct
    category weights". *)
Definition two_findings : AuditResult :=
  mkResult 0 100 "F"
    [ mkItem "robots.txt" critical 0 100 fail "Test details"
        "Test recommendation";
      mkItem "humans.txt" low 0 100 fail "Test details"
        "Test recommendation" ]
    (mkSummary (mkTally 0 6) (mkTally 0 6) (mkTally 0 5) (mkTally 0 2)).

End Samples.

(** * Vocabulary of the proofs *)

(** The tier and the maximum of a finding. *)
Definition shape (it : AuditItem) : Category * number :=
  (category it, maxScore it).

(** A score between 0 and 100. *)
Definition in_range (x : Q) : Prop := 0 <= x /\ x <= 100.

(** Decide the conditions a definition branches on until both sides
    agree by computation. *)
Ltac by_cases :=
  first
    [ reflexivity
    | match goal with
      | |- context [if ?b then _ else _] => destruct b
      | |- context [match ?x with _ => _ end] => destruct x
      end; by_cases ].

Ltac const_in_range := split; discriminate.

(** One iteration of the loop of [hasExplicitAllow] on its flag, the
    early return aside. *)
Definition flag_step (botName : string) (inBotBlock : bool) (line : string)
    : bool :=
  match agentMatch line with
  | Some group =>
      String.eqb (toLowerCase (trim group)) (toLowerCase botName)
  | None => if is_directive_line line then false else inBotBlock
  end.

(** ** Counting findings *)

Definition same_tier (c d : Category) : bool :=
  match c, d with
  | critical, critical | high, high | medium, medium | low, low => true
  | _, _ => false
  end.

(** The findings of a tier, and those of them that count as passed. *)
Definition tier_total (c : Category) (its : list AuditItem) : nat :=
  List.length (filter (fun it => same_tier (category it) c) its).

Definition tier_passed (c : Category) (its : list AuditItem) : nat :=
  List.length
    (filter (fun it => same_tier (category it) c
                       && counts_as_passed (status it)) its).

(** The finding is in the projection table with a target above its score. *)
Definition improvable (item : AuditItem) : bool :=
  match ComparisonReport.lookup (name item)
          ComparisonReport.PROJECTED_IMPROVEMENTS with
  | Some improvement =>
      Qlt_bool (score item) (ComparisonReport.imp_score improvement)
  | None => false
  end.

(** A file that is present but empty, taken as missing. *)
Definition nonempty (file : option string) : option string :=
  if truthy file then file else None.

Definition nonempty_files (f : ExistingGeoFiles) : ExistingGeoFiles :=
  mkGeoFiles (nonempty (robotsTxt f)) (nonempty (sitemapXml f))
    (nonempty (llmsTxt f)) (nonempty (llmsFullTxt f)) (nonempty (aiTxt f))
    (nonempty (aiJson f)) (nonempty (securityTxt f)) (nonempty (tdmrepJson f))
    (nonempty (humansTxt f)) (nonempty (manifestJson f))
    (nonempty (bingSiteAuth f)).

Definition with_nonempty_files (cr : SiteCrawlResult) : SiteCrawlResult :=
  mkCrawl (baseUrl cr) (domain cr) (pages cr)
    (nonempty_files (existingGeoFiles cr)).

(** The five key crawlers of [auditRobotsTxt] the text mentions. *)
Definition key_crawlers_mentioned (content : string) : nat :=
  List.length
    (filter (fun c => includes content c)
       ["GPTBot"; "ClaudeBot"; "Google-Extended"; "PerplexityBot";
        "Applebot-Extended"]).

(** The FAQ items of all pages. *)
Definition faq_items (cr : SiteCrawlResult) : nat :=
  list_sum (map (fun page => List.length (faqItems (content page))) (pages cr)).

Definition has_FAQPage_schema (cr : SiteCrawlResult) : bool :=
  existsb (fun page =>
             existsb GeoAuditor.isFAQPage (jsonLd (existingStructuredData page)))
          (pages cr).







(** The summary agrees with the findings: per tier, [total] is the number
    of findings of the tier and [passed] the number of them with status pass
    or partial; the totals add up to the number of findings. *)
Definition summary_agrees (r : AuditResult) : Prop :=
  (forall c,
      total (summary_get (summary r) c) = tier_total c (items r)
      /\ passed (summary_get (summary r) c) = tier_passed c (items r)
      /\ (passed (summary_get (summary r) c)
          <= total (summary_get (summary r) c))%nat)
  /\ (total (s_critical (summary r)) + total (s_high (summary r))
      + total (s_medium (summary r)) + total (s_low (summary r))
      = List.length (items r))%nat.

(** A finding with a given tier and maximum. *)
Definition shape_item (sh : Category * number) : AuditItem :=
  mkItem EmptyString (fst sh) 0 (snd sh) fail EmptyString EmptyString.


(** The findings selected by [keep], each paired with its projection. *)
Definition projected_pairs (keep : AuditItem -> bool) (its : list AuditItem)
    : list (AuditItem * AuditItem) :=
  map (fun b => (b, ComparisonReport.project_item b)) (filter keep its).


(** The status of a finding fits its score: a pass has at least 60, a
    fail at most 50, and not_applicable goes with 0. *)
Definition status_fits (it : AuditItem) : Prop :=
  (status it = pass -> 60 <= score it)
  /\ (status it = fail -> score it <= 50)
  /\ (status it = not_applicable -> score it = 0).



(** * Properties *)

(** ** Comparisons on rationals *)

Lemma Qlt_bool_iff (x y : Q) : Qlt_bool x y = true <-> x < y.
Proof.
  unfold Qlt_bool. rewrite negb_true_iff.
  split; intro H.
  - apply Qnot_le_lt. intro Hle.
    apply Qle_bool_iff in Hle. congruence.
  - destruct (Qle_bool y x) eqn:E; [|reflexivity].
    apply Qle_bool_iff in E. exfalso. exact (Qlt_not_le _ _ H E).
Qed.

Lemma Qlt_bool_false_iff (x y : Q) : Qlt_bool x y = false <-> y <= x.
Proof.
  unfold Qlt_bool. rewrite negb_false_iff. apply Qle_bool_iff.
Qed.

Lemma Qle_bool_false_iff (x y : Q) : Qle_bool x y = false <-> y < x.
Proof.
  rewrite <- Qlt_bool_iff. unfold Qlt_bool.
  destruct (Qle_bool x y); simpl; intuition congruence.
Qed.

Lemma Qlt_bool_irrefl (x : Q) : Qlt_bool x x = false.
Proof. apply Qlt_bool_false_iff. apply Qle_refl. Qed.

Lemma Math_round_Qeq (x y : Q) : x == y -> Math_round x = Math_round y.
Proof.
  intro H. unfold Math_round. apply Qfloor_comp. rewrite H. reflexivity.
Qed.

Lemma Math_round_inject_Z (z : Z) : Math_round (inject_Z z) = z.
Proof.
  unfold Math_round.
  assert (Hlo : (z <= Qfloor (inject_Z z + (1 # 2)))%Z).
  { rewrite <- (Qfloor_Z z) at 1. apply Qfloor_resp_le.
    rewrite <- (Qplus_0_r (inject_Z z)) at 1.
    apply Qplus_le_r. discriminate. }
  assert (Hhi : (Qfloor (inject_Z z + (1 # 2)) < z + 1)%Z).
  { rewrite Zlt_Qlt.
    eapply Qle_lt_trans; [apply Qfloor_le|].
    rewrite inject_Z_plus. apply Qplus_lt_r. reflexivity. }
  lia.
Qed.

Lemma Math_round_mono (x y : Q) : x <= y -> (Math_round x <= Math_round y)%Z.
Proof.
  intro H. unfold Math_round. apply Qfloor_resp_le.
  apply Qplus_le_l. exact H.
Qed.

(** ** The projection table *)

Lemma lookup_In {A : Type} (key : string) (table : list (string * A)) (v : A) :
  ComparisonReport.lookup key table = Some v -> In (key, v) table.
Proof.
  induction table as [|[k w] rest IH]; simpl; [discriminate|].
  destruct (String.eqb k key) eqn:E.
  - intro H. injection H as ->. apply String.eqb_eq in E. subst. now left.
  - intro H. right. now apply IH.
Qed.

Lemma In_lookup {A : Type} (key : string) (table : list (string * A)) (v : A) :
  NoDup (map fst table) -> In (key, v) table ->
  ComparisonReport.lookup key table = Some v.
Proof.
  induction table as [|[k w] rest IH]; simpl; [contradiction|].
  intros Hnd [Heq | Hin].
  - injection Heq as -> ->. now rewrite String.eqb_refl.
  - inversion Hnd as [|? ? Hnotin Hnd']; subst.
    destruct (String.eqb k key) eqn:E.
    + apply String.eqb_eq in E. subst. exfalso. apply Hnotin.
      change key with (fst (key, v)). now apply in_map.
    + now apply IH.
Qed.

Lemma table_keys_distinct :
  NoDup (map fst ComparisonReport.PROJECTED_IMPROVEMENTS).
Proof.
  simpl.
  repeat (constructor; [simpl; intuition discriminate|]).
  constructor.
Qed.

Lemma in_table_lookup (n : string) (imp : ComparisonReport.Improvement) :
  Spec.in_table n imp <->
  ComparisonReport.lookup n ComparisonReport.PROJECTED_IMPROVEMENTS = Some imp.
Proof.
  split.
  - apply In_lookup. exact table_keys_distinct.
  - apply lookup_In.
Qed.

Lemma project_item_spec (item : AuditItem) :
  Spec.projection_of item (ComparisonReport.project_item item).
Proof.
  unfold ComparisonReport.project_item.
  destruct (ComparisonReport.lookup (name item) _) as [imp|] eqn:Hl.
  - destruct (Qlt_bool (score item) (ComparisonReport.imp_score imp)) eqn:Hlt.
    + apply Spec.projection_replaced.
      * now apply in_table_lookup.
      * now apply Qlt_bool_iff.
      * reflexivity.
    + apply Spec.projection_unchanged.
      intros (imp' & Hin & Hs).
      apply in_table_lookup in Hin. rewrite Hl in Hin. injection Hin as <-.
      apply Qlt_bool_iff in Hs. congruence.
  - apply Spec.projection_unchanged.
    intros (imp' & Hin & _).
    apply in_table_lookup in Hin. congruence.
Qed.

(** The relation [projection_of] determines its result: a finding is
    replaced exactly when it is eligible. *)
Lemma projection_of_functional (item x y : AuditItem) :
  Spec.projection_of item x -> Spec.projection_of item y -> x = y.
Proof.
  intros Hx Hy.
  destruct Hx as [imp st Hin Hs Hst | Hne];
    destruct Hy as [imp' st' Hin' Hs' Hst' | Hne'].
  - apply in_table_lookup in Hin, Hin'.
    rewrite Hin in Hin'. injection Hin' as <-. now subst.
  - exfalso. apply Hne'. now exists imp.
  - exfalso. apply Hne. now exists imp'.
  - reflexivity.
Qed.

Lemma project_item_score (item : AuditItem) :
  score item <= score (ComparisonReport.project_item item).
Proof.
  unfold ComparisonReport.project_item.
  destruct (ComparisonReport.lookup (name item) _) as [imp|];
    [|apply Qle_refl].
  destruct (Qlt_bool (score item) (ComparisonReport.imp_score imp)) eqn:Hlt;
    [|apply Qle_refl].
  simpl. apply Qlt_le_weak. now apply Qlt_bool_iff.
Qed.

Lemma project_item_idempotent (item : AuditItem) :
  ComparisonReport.project_item (ComparisonReport.project_item item)
  = ComparisonReport.project_item item.
Proof.
  destruct (ComparisonReport.lookup (name item)
              ComparisonReport.PROJECTED_IMPROVEMENTS) as [imp|] eqn:Hl.
  - destruct (Qlt_bool (score item) (ComparisonReport.imp_score imp)) eqn:Hlt.
    + assert (E : ComparisonReport.project_item item
                  = mkItem (name item) (category item)
                      (ComparisonReport.imp_score imp) (maxScore item)
                      (if Qle_bool 70 (ComparisonReport.imp_score imp)
                       then pass else partial)
                      (ComparisonReport.note imp)
                      "Included in generated package").
      { unfold ComparisonReport.project_item. now rewrite Hl, Hlt. }
      rewrite E. unfold ComparisonReport.project_item. cbn [name score].
      rewrite Hl, Qlt_bool_irrefl. reflexivity.
    + assert (E : ComparisonReport.project_item item = item).
      { unfold ComparisonReport.project_item. now rewrite Hl, Hlt. }
      rewrite E. exact E.
  - assert (E : ComparisonReport.project_item item = item).
    { unfold ComparisonReport.project_item. now rewrite Hl. }
    rewrite E. exact E.
Qed.

Lemma Forall2_map_r {A B : Type} (R : A -> B -> Prop) (f : A -> B)
    (xs : list A) :
  (forall x, R x (f x)) -> Forall2 R xs (map f xs).
Proof.
  intro H. induction xs; simpl; constructor; auto.
Qed.

(** ** Shape of the findings: tier and maximum *)

Lemma presence_item_shape file n c f m g a :
  shape (GeoAuditor.presence_item file n c f m g a) = (c, 100).
Proof. reflexivity. Qed.

Lemma auditRobotsTxt_shape content :
  shape (GeoAuditor.auditRobotsTxt content) = (critical, 100).
Proof. unfold GeoAuditor.auditRobotsTxt. cbv zeta. by_cases. Qed.

Lemma auditSitemap_shape content n :
  shape (GeoAuditor.auditSitemap content n) = (critical, 100).
Proof. unfold GeoAuditor.auditSitemap. by_cases. Qed.

Lemma auditLlmsTxt_shape content :
  shape (GeoAuditor.auditLlmsTxt content) = (critical, 100).
Proof. unfold GeoAuditor.auditLlmsTxt. by_cases. Qed.

Lemma auditStructuredData_shape cr :
  shape (GeoAuditor.auditStructuredData cr) = (critical, 100).
Proof.
  unfold GeoAuditor.auditStructuredData. cbv zeta.
  destruct (_ =? 0)%nat; reflexivity.
Qed.

Lemma auditServerRendering_shape cr :
  shape (GeoAuditor.auditServerRendering cr) = (critical, 100).
Proof. reflexivity. Qed.

Lemma auditAiBotBlocking_shape content :
  shape (GeoAuditor.auditAiBotBlocking content) = (critical, 100).
Proof.
  unfold GeoAuditor.auditAiBotBlocking.
  destruct content as [[|c s]|]; try reflexivity.
  cbv zeta. destruct (_ =? 0)%nat; reflexivity.
Qed.

Lemma auditSearchIndexing_shape cr :
  shape (GeoAuditor.auditSearchIndexing cr) = (critical, 100).
Proof. reflexivity. Qed.

Lemma auditAiPolicy_shape t j :
  shape (GeoAuditor.auditAiPolicy t j) = (high, 100).
Proof.
  unfold GeoAuditor.auditAiPolicy. cbv zeta.
  destruct (negb (truthy t) && negb (truthy j)); reflexivity.
Qed.

Lemma auditMetaDescriptions_shape cr :
  shape (GeoAuditor.auditMetaDescriptions cr) = (high, 100).
Proof. reflexivity. Qed.

Lemma auditHeadingHierarchy_shape cr :
  shape (GeoAuditor.auditHeadingHierarchy cr) = (high, 100).
Proof. reflexivity. Qed.

Lemma auditContentFreshness_shape env cr :
  shape (GeoAuditor.auditContentFreshness env cr) = (high, 100).
Proof.
  unfold GeoAuditor.auditContentFreshness. cbv zeta.
  destruct (_ =? 0)%nat; reflexivity.
Qed.

Lemma auditContentDepth_shape cr :
  shape (GeoAuditor.auditContentDepth cr) = (high, 100).
Proof.
  unfold GeoAuditor.auditContentDepth. cbv zeta.
  destruct (_ =? 0)%nat; reflexivity.
Qed.

Lemma auditOpenGraph_shape cr :
  shape (GeoAuditor.auditOpenGraph cr) = (medium, 100).
Proof. reflexivity. Qed.

Lemma auditAiContentDirectives_shape cr :
  shape (GeoAuditor.auditAiContentDirectives cr) = (medium, 100).
Proof. reflexivity. Qed.

Lemma auditFAQContent_shape cr :
  shape (GeoAuditor.auditFAQContent cr) = (low, 100).
Proof.
  unfold GeoAuditor.auditFAQContent. cbv zeta.
  destruct (_ =? 0)%nat; reflexivity.
Qed.

Lemma audit_items_shape env cr :
  map shape (GeoAuditor.audit_items env cr)
  = [ (critical, 100); (critical, 100); (critical, 100); (critical, 100);
      (critical, 100); (critical, 100); (critical, 100);
      (high, 100); (high, 100); (high, 100); (high, 100); (high, 100);
      (high, 100);
      (medium, 100); (medium, 100); (medium, 100); (medium, 100);
      (medium, 100);
      (low, 100); (low, 100) ].
Proof.
  unfold GeoAuditor.audit_items. cbv zeta. cbn [map].
  rewrite auditRobotsTxt_shape, auditSitemap_shape, auditLlmsTxt_shape,
    auditStructuredData_shape, auditServerRendering_shape,
    auditAiBotBlocking_shape, auditSearchIndexing_shape, auditAiPolicy_shape,
    auditMetaDescriptions_shape, auditHeadingHierarchy_shape,
    auditContentFreshness_shape, auditContentDepth_shape,
    auditOpenGraph_shape, auditAiContentDirectives_shape,
    auditFAQContent_shape.
  rewrite !presence_item_shape. reflexivity.
Qed.

(** ** The scoring loop computes the two weighted sums *)

Section ScoreLoop.

Variable weight_of : Category -> number.
Hypothesis weight_of_tier : forall c, weight_of c == Spec.tier_weight c.

Lemma score_loop_from (its : list AuditItem) (acc : Totals) :
  totalWeightedScore (fold_left (score_loop_body weight_of) its acc)
    == totalWeightedScore acc + Spec.weighted_sum score its
  /\ totalWeightedMax (fold_left (score_loop_body weight_of) its acc)
    == totalWeightedMax acc + Spec.weighted_sum maxScore its.
Proof.
  revert acc. induction its as [|it rest IH]; intro acc; simpl.
  - split; ring.
  - destruct (IH (score_loop_body weight_of acc it)) as [Hs Hm].
    rewrite Hs, Hm. unfold score_loop_body; cbn [totalWeightedScore
      totalWeightedMax]. rewrite weight_of_tier. split; ring.
Qed.

Lemma score_loop_sums (its : list AuditItem) :
  totalWeightedScore (score_loop weight_of its)
    == Spec.weighted_sum score its
  /\ totalWeightedMax (score_loop weight_of its)
    == Spec.weighted_sum maxScore its.
Proof.
  unfold score_loop.
  destruct (score_loop_from its initial_totals) as [Hs Hm].
  rewrite Hs, Hm. simpl. split; ring.
Qed.

(** The guarded quotient both audits compute after the loop. *)
Lemma overall_of_loop (its : list AuditItem) :
  0 <= Spec.weighted_sum maxScore its ->
  (if Qlt_bool 0 (totalWeightedMax (score_loop weight_of its))
   then inject_Z
          (Math_round
             (totalWeightedScore (score_loop weight_of its)
              / totalWeightedMax (score_loop weight_of its) * 100))
   else 0)
  = inject_Z (Spec.overall its).
Proof.
  intro Hnonneg.
  destruct (score_loop_sums its) as [Hs Hm].
  unfold Spec.overall.
  destruct (Qlt_bool 0 (totalWeightedMax (score_loop weight_of its))) eqn:Hpos.
  - apply Qlt_bool_iff in Hpos. rewrite Hm in Hpos.
    destruct (Qeq_bool (Spec.weighted_sum maxScore its) 0) eqn:Hz.
    + apply Qeq_bool_iff in Hz. rewrite Hz in Hpos.
      exfalso. exact (Qlt_irrefl _ Hpos).
    + f_equal. apply Math_round_Qeq. rewrite Hs, Hm. reflexivity.
  - apply Qlt_bool_false_iff in Hpos. rewrite Hm in Hpos.
    assert (Hz : Spec.weighted_sum maxScore its == 0)
      by (apply Qle_antisym; assumption).
    apply Qeq_bool_iff in Hz. rewrite Hz. reflexivity.
Qed.

End ScoreLoop.

Lemma weights_tier (c : Category) :
  GeoAuditor.weights c == Spec.tier_weight c.
Proof. destruct c; reflexivity. Qed.

Lemma weight_or_default_tier (c : Category) :
  ComparisonReport.weight_or_default c == Spec.tier_weight c.
Proof. destruct c; reflexivity. Qed.

Lemma tier_weight_pos (c : Category) : 0 < Spec.tier_weight c.
Proof. destruct c; reflexivity. Qed.

Lemma weighted_max_nonneg (its : list AuditItem) :
  Forall (fun it => 0 <= maxScore it) its ->
  0 <= Spec.weighted_sum maxScore its.
Proof.
  induction 1 as [|it rest Hit _ IH]; simpl.
  - apply Qle_refl.
  - rewrite <- (Qplus_0_r 0). apply Qplus_le_compat; [|exact IH].
    apply Qmult_le_0_compat; [exact Hit|].
    apply Qlt_le_weak, tier_weight_pos.
Qed.

Lemma weighted_sum_shape (f g : AuditItem -> Q) (xs ys : list AuditItem) :
  map (fun it => (category it, f it)) xs
  = map (fun it => (category it, g it)) ys ->
  Spec.weighted_sum f xs = Spec.weighted_sum g ys.
Proof.
  revert ys. induction xs as [|x xs IH]; intros [|y ys]; simpl;
    try discriminate; [reflexivity|].
  intro H. injection H as Hc Hf Hrest.
  rewrite Hc, Hf. f_equal. now apply IH.
Qed.

Lemma project_item_maxScore (item : AuditItem) :
  maxScore (ComparisonReport.project_item item) = maxScore item.
Proof.
  unfold ComparisonReport.project_item.
  destruct (ComparisonReport.lookup _ _) as [imp|]; [|reflexivity].
  destruct (Qlt_bool _ _); reflexivity.
Qed.


(** ** Claims *)


Lemma projection_changes_eligible (item item' : AuditItem) :
  Spec.projection_of item item' -> (Spec.eligible item <-> item' <> item).
Proof.
  intros [imp st Hin Hs Hst | Hne].
  - split.
    + intros _ Heq.
      apply (f_equal score) in Heq. cbn [score] in Heq.
      rewrite Heq in Hs. exact (Qlt_irrefl _ Hs).
    + intros _. now exists imp.
  - split; [contradiction | congruence].
Qed.

(** C2. Each finding is replaced exactly when its name is in the table
    and its score is strictly below the target: the replacement takes the
    table's score, status pass for a target of at least 70 and partial
    otherwise, the table's note and the fixed recommendation; any other
    finding is passed through unchanged. *)
Theorem C2_projection_per_finding (before : AuditResult) :
  Forall2
    (fun item item' =>
       Spec.projection_of item item'
       /\ (Spec.eligible item <-> item' <> item))
    (items before)
    (items (ComparisonReport.generateProjectedAudit before)).
Proof.
  unfold ComparisonReport.generateProjectedAudit. cbn [items].
  apply Forall2_map_r. intro item.
  split; [apply project_item_spec|].
  apply projection_changes_eligible, project_item_spec.
Qed.

(** C3. The projected score of a finding is never below its original
    score. *)
Theorem C3_projection_monotone (before : AuditResult) :
  Forall2 (fun item item' => score item <= score item')
    (items before)
    (items (ComparisonReport.generateProjectedAudit before)).
Proof.
  unfold ComparisonReport.generateProjectedAudit. cbn [items].
  apply Forall2_map_r. exact project_item_score.
Qed.

Lemma scoreToGrade_step (s : Q) :
  Spec.grade_of s (GeoAuditor.scoreToGrade s).
Proof.
  unfold GeoAuditor.scoreToGrade.
  destruct (Qle_bool 90 s) eqn:H90;
    [apply Spec.grade_A_plus; now apply Qle_bool_iff|].
  apply Qle_bool_false_iff in H90.
  destruct (Qle_bool 80 s) eqn:H80;
    [apply Spec.grade_A; [now apply Qle_bool_iff | assumption]|].
  apply Qle_bool_false_iff in H80.
  destruct (Qle_bool 70 s) eqn:H70;
    [apply Spec.grade_B; [now apply Qle_bool_iff | assumption]|].
  apply Qle_bool_false_iff in H70.
  destruct (Qle_bool 60 s) eqn:H60;
    [apply Spec.grade_C; [now apply Qle_bool_iff | assumption]|].
  apply Qle_bool_false_iff in H60.
  destruct (Qle_bool 50 s) eqn:H50;
    [apply Spec.grade_D; [now apply Qle_bool_iff | assumption]|].
  apply Qle_bool_false_iff in H50.
  now apply Spec.grade_F.
Qed.

(** C4. The two grade mappings are the same step function (at least 90
    is A+, 80 is A, 70 is B, 60 is C, 50 is D, lower is F), and the grade of
    every result of [auditSite] and of [generateProjectedAudit] is that
    function of the result's overall score. *)
Theorem C4_grade_mapping_shared :
  (forall s, GeoAuditor.scoreToGrade s = ComparisonReport.scoreToGrade s)
  /\ (forall s, Spec.grade_of s (GeoAuditor.scoreToGrade s))
  /\ (forall env cr,
         grade (GeoAuditor.auditSite env cr)
         = GeoAuditor.scoreToGrade
             (overallScore (GeoAuditor.auditSite env cr)))
  /\ (forall before,
         grade (ComparisonReport.generateProjectedAudit before)
         = ComparisonReport.scoreToGrade
             (overallScore (ComparisonReport.generateProjectedAudit before))).
Proof.
  split; [reflexivity|].
  split; [exact scoreToGrade_step|].
  split.
  - intros env cr. unfold GeoAuditor.auditSite. cbv zeta.
    cbn [grade overallScore]. reflexivity.
  - intros before. unfold ComparisonReport.generateProjectedAudit. cbv zeta.
    cbn [grade overallScore]. reflexivity.
Qed.

(** C9. Projecting twice is projecting once. *)
Theorem C9_projection_idempotent (before : AuditResult) :
  ComparisonReport.generateProjectedAudit
    (ComparisonReport.generateProjectedAudit before)
  = ComparisonReport.generateProjectedAudit before.
Proof.
  unfold ComparisonReport.generateProjectedAudit at 2.
  unfold ComparisonReport.generateProjectedAudit. cbn [items].
  rewrite map_map.
  rewrite (map_ext _ _ project_item_idempotent).
  reflexivity.
Qed.

(** ** The robots.txt directive scan *)

Lemma set_insert_all_In (x : string) (xs seen : list string) :
  In x (set_insert_all xs seen) <-> In x seen \/ In x xs.
Proof.
  revert seen. induction xs as [|y r IH]; intro seen; simpl.
  - tauto.
  - destruct (existsb (String.eqb y) seen) eqn:E.
    + rewrite IH. split; [tauto|].
      intros [H | [-> | H]]; auto.
      left. apply existsb_exists in E. destruct E as (z & Hz & Heq).
      apply String.eqb_eq in Heq. now subst.
    + rewrite IH, in_app_iff. simpl. tauto.
Qed.

Lemma set_insert_all_NoDup (xs seen : list string) :
  NoDup seen -> NoDup (set_insert_all xs seen).
Proof.
  revert seen. induction xs as [|y r IH]; intros seen Hnd; simpl; [exact Hnd|].
  destruct (existsb (String.eqb y) seen) eqn:E; [now apply IH|].
  apply IH. apply NoDup_app; [exact Hnd | repeat constructor; simpl; tauto |].
  intros z Hz [<- | []].
  assert (Ht : existsb (String.eqb y) seen = true); [|congruence].
  apply existsb_exists. exists y. split; [exact Hz | apply String.eqb_refl].
Qed.

Lemma unique_In (x : string) (xs : list string) : In x (unique xs) <-> In x xs.
Proof. unfold unique. rewrite set_insert_all_In. simpl. tauto. Qed.

Lemma unique_NoDup (xs : list string) : NoDup (unique xs).
Proof. apply set_insert_all_NoDup. constructor. Qed.

Lemma after_prefix_ci_first (a : ascii) (p line rest : string) :
  after_prefix_ci (String a p) line = Some rest ->
  exists c r, line = String c r /\ a = lower_char c.
Proof.
  destruct line as [|c r]; cbn [after_prefix_ci]; [discriminate|].
  destruct (Ascii.eqb a (lower_char c)) eqn:E; [|discriminate].
  intros _. apply Ascii.eqb_eq in E. eauto.
Qed.

(** A line cannot be both a [User-agent:] and a [Disallow:] line. *)
Lemma disallow_not_agent (line : string) :
  disallowMatch line = true -> agentMatch line = None.
Proof.
  unfold disallowMatch, full_path_directive, agentMatch.
  destruct (after_prefix_ci "disallow:" line) as [rest|] eqn:Ed;
    [|discriminate].
  intros _.
  destruct (after_prefix_ci "user-agent:" line) as [rest'|] eqn:Eu;
    [|reflexivity].
  apply after_prefix_ci_first in Ed, Eu.
  destruct Ed as (c & r & -> & Hd). destruct Eu as (c' & r' & Heq & Hu).
  injection Heq as <- <-. rewrite <- Hd in Hu. discriminate.
Qed.


Lemma scan_lines_app content st l1 l2 :
  GeoAuditor.scan_lines content st (l1 ++ l2)
  = GeoAuditor.scan_lines content (GeoAuditor.scan_lines content st l1) l2.
Proof. unfold GeoAuditor.scan_lines. apply fold_left_app. Qed.

(** *** The current agent set *)

(** What one line does to the current agents. *)
Lemma scan_line_agents content st line :
  GeoAuditor.currentAgents (GeoAuditor.scan_line content st line)
  = match agentMatch line with
    | Some group => (GeoAuditor.currentAgents st ++ [trim group])%list
    | None =>
        if is_directive_line line then [] else GeoAuditor.currentAgents st
    end.
Proof.
  unfold GeoAuditor.scan_line. now destruct (agentMatch line).
Qed.

Lemma since_last_directive_all (lines : list string) :
  existsb Spec.ends_block lines = false ->
  Spec.since_last_directive lines = lines.
Proof.
  destruct lines as [|l rest]; [reflexivity|].
  cbn [existsb Spec.since_last_directive].
  intro H. apply orb_false_iff in H. destruct H as [Hl Hrest].
  now rewrite Hrest, Hl.
Qed.

(** The agents the scan holds after [lines] are those in force by the
    specification's reading, after the ones it started with if no line
    ended a block. *)
Lemma scan_lines_agents content lines st :
  GeoAuditor.currentAgents (GeoAuditor.scan_lines content st lines)
  = ((if existsb Spec.ends_block lines then []
      else GeoAuditor.currentAgents st)
     ++ Spec.agents_in_force lines)%list.
Proof.
  revert st. induction lines as [|l rest IH]; intro st.
  - simpl. now rewrite app_nil_r.
  - change (GeoAuditor.scan_lines content st (l :: rest))
      with (GeoAuditor.scan_lines content
              (GeoAuditor.scan_line content st l) rest).
    rewrite IH, scan_line_agents.
    unfold Spec.agents_in_force.
    cbn [existsb Spec.since_last_directive].
    destruct (existsb Spec.ends_block rest) eqn:Hrest.
    + now rewrite orb_true_r.
    + rewrite orb_false_r.
      rewrite (since_last_directive_all rest Hrest).
      unfold Spec.ends_block.
      destruct (agentMatch l) as [group|] eqn:Ha.
      * cbn [flat_map].
        assert (Hl : Spec.agent_named l = [trim group])
          by (unfold Spec.agent_named; now rewrite Ha).
        rewrite Hl. now rewrite <- app_assoc.
      * destruct (is_directive_line l); [reflexivity|].
        cbn [flat_map].
        assert (Hl : Spec.agent_named l = [])
          by (unfold Spec.agent_named; now rewrite Ha).
        now rewrite Hl.
Qed.

Lemma scan_agents_in_force content lines :
  GeoAuditor.currentAgents
    (GeoAuditor.scan_lines content (GeoAuditor.mkScan [] []) lines)
  = Spec.agents_in_force lines.
Proof.
  rewrite scan_lines_agents. cbn [GeoAuditor.currentAgents].
  now destruct (existsb Spec.ends_block lines).
Qed.

Lemma agents_in_force_snoc (lines : list string) (x : string) :
  Spec.agents_in_force (lines ++ [x])
  = match agentMatch x with
    | Some group => (Spec.agents_in_force lines ++ [trim group])%list
    | None => if is_directive_line x then [] else Spec.agents_in_force lines
    end.
Proof.
  rewrite <- !(scan_agents_in_force EmptyString).
  rewrite scan_lines_app.
  change (GeoAuditor.scan_lines EmptyString ?s [x])
    with (GeoAuditor.scan_line EmptyString s x).
  apply scan_line_agents.
Qed.

(** *** Explicit Allow *)

Lemma allow_not_agent (line : string) :
  allowMatch line = true -> agentMatch line = None.
Proof.
  unfold allowMatch, full_path_directive, agentMatch.
  destruct (after_prefix_ci "allow:" line) as [rest|] eqn:Ed;
    [|discriminate].
  intros _.
  destruct (after_prefix_ci "user-agent:" line) as [rest'|] eqn:Eu;
    [|reflexivity].
  apply after_prefix_ci_first in Ed, Eu.
  destruct Ed as (c & r & -> & Hd). destruct Eu as (c' & r' & Heq & Hu).
  injection Heq as <- <-. rewrite <- Hd in Hu. discriminate.
Qed.

Lemma hasExplicitAllow_from_iff botName lines flag :
  GeoAuditor.hasExplicitAllow_from botName lines flag = true
  <-> exists before line after,
        lines = (before ++ line :: after)%list
        /\ allowMatch line = true
        /\ fold_left (flag_step botName) before flag = true.
Proof.
  revert flag. induction lines as [|l rest IH]; intro flag.
  - simpl. split; [discriminate|].
    intros (before & line & after & Heq & _). destruct before; discriminate.
  - cbn [GeoAuditor.hasExplicitAllow_from].
    assert (Hstep : forall flag',
               flag_step botName flag l = flag' ->
               (GeoAuditor.hasExplicitAllow_from botName rest flag' = true
                <-> exists before line after,
                      l :: rest = ((l :: before) ++ line :: after)%list
                      /\ allowMatch line = true
                      /\ fold_left (flag_step botName) (l :: before) flag
                         = true)).
    { intros flag' Hf. rewrite IH. cbn [fold_left]. rewrite Hf. split.
      - intros (before & line & after & -> & Ha & Hfl).
        now exists before, line, after.
      - intros (before & line & after & Heq & Ha & Hfl).
        simpl in Heq. injection Heq as ->. now exists before, line, after. }
    assert (Hsplit : forall P : list string -> string -> list string -> Prop,
               (exists before line after,
                   l :: rest = (before ++ line :: after)%list
                   /\ P before line after)
               <-> P [] l rest
                   \/ exists before line after,
                        l :: rest = ((l :: before) ++ line :: after)%list
                        /\ P (l :: before) line after).
    { intro P. split.
      - intros ([|x before] & line & after & Heq & HP); simpl in Heq;
          injection Heq as <- ->; [now left|].
        right. now exists before, line, after.
      - intros [HP | (before & line & after & Heq & HP)].
        + now exists [], l, rest.
        + now exists (l :: before), line, after. }
    rewrite (Hsplit (fun before line after =>
                       allowMatch line = true
                       /\ fold_left (flag_step botName) before flag = true)).
    cbn [fold_left].
    destruct (agentMatch l) as [group|] eqn:Ha.
    + rewrite (Hstep _ ltac:(unfold flag_step; rewrite Ha; reflexivity)).
      split; [now right|].
      intros [[Hallow _] | H]; [|exact H].
      apply allow_not_agent in Hallow. congruence.
    + destruct (flag && allowMatch l) eqn:Hnow.
      * apply andb_true_iff in Hnow. destruct Hnow as [-> ->].
        split; [now left | reflexivity].
      * destruct (is_directive_line l) eqn:Hd.
        -- rewrite (Hstep false
                      ltac:(unfold flag_step; rewrite Ha, Hd; reflexivity)).
           split; [now right|].
           intros [[Hallow Hflag] | H]; [|exact H].
           rewrite Hflag, Hallow in Hnow. discriminate.
        -- rewrite (Hstep flag
                      ltac:(unfold flag_step; rewrite Ha, Hd; reflexivity)).
           split; [now right|].
           intros [[Hallow Hflag] | H]; [|exact H].
           rewrite Hflag, Hallow in Hnow. discriminate.
Qed.

(** The flag is set exactly when the agent named last, since the last
    line that ended a block, is the crawler. *)
Lemma flag_names_last botName lines flag :
  fold_left (flag_step botName) lines flag = true
  <-> (Spec.agents_in_force lines = []
       /\ existsb Spec.ends_block lines = false /\ flag = true)
      \/ exists earlier agent,
           Spec.agents_in_force lines = (earlier ++ [agent])%list
           /\ toLowerCase agent = toLowerCase botName.
Proof.
  induction lines as [|x l IH] using rev_ind.
  - simpl. split.
    + intros ->. now left.
    + intros [(_ & _ & H) | (earlier & agent & H & _)]; [exact H|].
      destruct earlier; discriminate.
  - rewrite fold_left_app. cbn [fold_left].
    rewrite agents_in_force_snoc, existsb_app. cbn [existsb].
    rewrite orb_false_r.
    unfold flag_step at 1, Spec.ends_block at 2.
    destruct (agentMatch x) as [group|] eqn:Ha.
    + rewrite String.eqb_eq. split.
      * intro H. right. now exists (Spec.agents_in_force l), (trim group).
      * intros [(H & _) | (earlier & agent & H & Hn)].
        -- destruct (Spec.agents_in_force l); discriminate.
        -- apply app_inj_tail in H. destruct H as [_ <-]. exact Hn.
    + destruct (is_directive_line x).
      * split; [discriminate|].
        intros [(_ & H & _) | (earlier & agent & H & _)].
        -- rewrite orb_true_r in H. discriminate.
        -- destruct earlier; discriminate.
      * rewrite orb_false_r. exact IH.
Qed.

Lemma hasExplicitAllow_iff (content bot : string) :
  GeoAuditor.hasExplicitAllow content bot = true
  <-> Spec.explicitly_allowed content bot.
Proof.
  unfold GeoAuditor.hasExplicitAllow, Spec.explicitly_allowed.
  rewrite hasExplicitAllow_from_iff. split.
  - intros (before & line & after & Heq & Ha & Hflag).
    apply flag_names_last in Hflag.
    destruct Hflag as [(_ & _ & H) | (earlier & agent & Hf & Hn)];
      [discriminate|].
    now exists before, line, after, earlier, agent.
  - intros (before & line & after & earlier & agent & Heq & Ha & Hf & Hn).
    exists before, line, after. split; [exact Heq|]. split; [exact Ha|].
    apply flag_names_last. right. now exists earlier, agent.
Qed.

Lemma find_crawler (agent bot : string) :
  find (fun b => String.eqb (toLowerCase b) (toLowerCase agent))
       GeoAuditor.aiCrawlers = Some bot
  <-> In bot GeoAuditor.aiCrawlers /\ toLowerCase bot = toLowerCase agent.
Proof.
  split.
  - intro H. apply find_some in H. destruct H as [Hin Heq].
    apply String.eqb_eq in Heq. auto.
  - intros [Hin Heq]. rewrite <- Heq.
    unfold GeoAuditor.aiCrawlers in Hin. simpl in Hin.
    repeat (destruct Hin as [<- | Hin]; [reflexivity|]).
    contradiction.
Qed.

Lemma no_crawler_is_wildcard (bot : string) :
  In bot GeoAuditor.aiCrawlers -> toLowerCase bot <> "*".
Proof.
  unfold GeoAuditor.aiCrawlers. simpl. intro Hin.
  repeat (destruct Hin as [<- | Hin]; [discriminate|]).
  contradiction.
Qed.

Lemma blocked_by_iff (content agent bot : string) :
  In bot (GeoAuditor.blocked_by content agent) <-> Spec.blocks content agent bot.
Proof.
  unfold GeoAuditor.blocked_by, Spec.blocks.
  destruct (String.eqb agent "*") eqn:E.
  - apply String.eqb_eq in E. subst agent.
    rewrite filter_In, negb_true_iff, <- not_true_iff_false.
    rewrite hasExplicitAllow_iff. split.
    + intros [Hin Hallow]. auto.
    + intros [Hin [[_ Hallow] | Heq]]; [auto|].
      exfalso. exact (no_crawler_is_wildcard bot Hin Heq).
  - apply String.eqb_neq in E.
    destruct (find _ GeoAuditor.aiCrawlers) as [matchedBot|] eqn:F.
    + apply find_crawler in F. destruct F as [Hin Heq]. simpl. split.
      * intros [<- | []]. auto.
      * intros [Hin' [[Hstar _] | Heq']]; [contradiction|].
        left. assert (F' : find (fun b => String.eqb (toLowerCase b)
                                      (toLowerCase agent))
                             GeoAuditor.aiCrawlers = Some bot)
          by (apply find_crawler; auto).
        assert (F'' : find (fun b => String.eqb (toLowerCase b)
                                      (toLowerCase agent))
                             GeoAuditor.aiCrawlers = Some matchedBot)
          by (apply find_crawler; auto).
        congruence.
    + simpl. split; [contradiction|].
      intros [Hin [[Hstar _] | Heq]]; [contradiction|].
      assert (F' : find (fun b => String.eqb (toLowerCase b)
                                    (toLowerCase agent))
                     GeoAuditor.aiCrawlers = Some bot)
        by (apply find_crawler; auto).
      congruence.
Qed.

Lemma scan_line_blocked content st line bot :
  In bot (GeoAuditor.blockedBots (GeoAuditor.scan_line content st line))
  <-> In bot (GeoAuditor.blockedBots st)
      \/ (disallowMatch line = true
          /\ exists agent, In agent (GeoAuditor.currentAgents st)
                           /\ Spec.blocks content agent bot).
Proof.
  unfold GeoAuditor.scan_line.
  destruct (agentMatch line) as [group|] eqn:Ea.
  - cbn [GeoAuditor.blockedBots]. split; [tauto|].
    intros [H | [Hd _]]; [exact H|].
    apply disallow_not_agent in Hd. congruence.
  - cbn [GeoAuditor.blockedBots].
    destruct (disallowMatch line); cbn [andb]; [|intuition discriminate].
    destruct (GeoAuditor.currentAgents st) as [|a agents]; cbn [List.length].
    + simpl. split; [tauto|]. intros [H | [_ (agent & [] & _)]]. exact H.
    + change (0 <? S (List.length agents))%nat with true. cbv iota.
      rewrite in_app_iff, in_flat_map. split.
      * intros [H | (agent & Hin & Hb)]; [tauto|].
        right. split; [reflexivity|]. exists agent.
        split; [exact Hin | now apply blocked_by_iff].
      * intros [H | [_ (agent & Hin & Hb)]]; [tauto|].
        right. exists agent. split; [exact Hin | now apply blocked_by_iff].
Qed.

(** The crawlers pushed onto [blockedBots] are those blocked by a current
    agent at some [Disallow: /] line. *)
Lemma scan_lines_blocked content lines st bot :
  In bot (GeoAuditor.blockedBots (GeoAuditor.scan_lines content st lines))
  <-> In bot (GeoAuditor.blockedBots st)
      \/ exists before line after agent,
           lines = (before ++ line :: after)%list
           /\ disallowMatch line = true
           /\ In agent
                (GeoAuditor.currentAgents
                   (GeoAuditor.scan_lines content st before))
           /\ Spec.blocks content agent bot.
Proof.
  revert st. induction lines as [|x r IH]; intro st.
  - simpl. split; [tauto|].
    intros [H | (before & line & after & agent & Heq & _)]; [exact H|].
    destruct before; discriminate.
  - change (GeoAuditor.scan_lines content st (x :: r))
      with (GeoAuditor.scan_lines content
              (GeoAuditor.scan_line content st x) r).
    rewrite IH, scan_line_blocked. split.
    + intros [[H | [Hd (agent & Hin & Hb)]]
             | (before & line & after & agent & Heq & Hd & Hin & Hb)].
      * now left.
      * right. exists [], x, r, agent. simpl. auto.
      * right. exists (x :: before), line, after, agent.
        subst r. simpl. auto.
    + intros [H | (before & line & after & agent & Heq & Hd & Hin & Hb)].
      * now left; left.
      * destruct before as [|y before]; simpl in Heq; injection Heq as <- ->.
        -- left; right. split; [exact Hd|]. exists agent. simpl in Hin. auto.
        -- right. exists before, line, after, agent. auto.
Qed.

Lemma blocked_crawlers_marked content bot :
  In bot (GeoAuditor.blocked_crawlers content)
  <-> Spec.marked_blocked content bot.
Proof.
  unfold GeoAuditor.blocked_crawlers, Spec.marked_blocked.
  rewrite unique_In, scan_lines_blocked. cbn [GeoAuditor.blockedBots In].
  split.
  - intros [[] | (before & line & after & agent & Heq & Hd & Hin & Hb)].
    rewrite scan_agents_in_force in Hin.
    now exists before, line, after, agent.
  - intros (before & line & after & agent & Heq & Hd & Hin & Hb).
    right. exists before, line, after, agent.
    now rewrite scan_agents_in_force.
Qed.



(** *** Directive lines reset the current agents *)











(** The projection test of the repository: both findings reach 100, and so
    does the overall score. *)
Example two_findings_projected :
  overallScore (ComparisonReport.generateProjectedAudit Samples.two_findings)
  = 100.
Proof. vm_compute. reflexivity. Qed.

(** ** Substrings *)

Lemma startsWith_iff (s p : string) :
  startsWith s p = true <-> exists rest, s = p ++ rest.
Proof.
  revert s. induction p as [|a p IH]; intro s.
  - simpl. destruct s; split; eauto.
  - destruct s as [|b s]; cbn [startsWith].
    + split; [discriminate | intros (rest & H); discriminate].
    + rewrite andb_true_iff, IH. split.
      * intros [Hab (rest & ->)]. apply Ascii.eqb_eq in Hab. subst.
        now exists rest.
      * intros (rest & H). simpl in H. injection H as -> ->.
        split; [apply Ascii.eqb_refl | now exists rest].
Qed.

Lemma includes_iff (s t : string) : includes s t = true <-> Spec.contains s t.
Proof.
  unfold Spec.contains. induction s as [|c s IH]; cbn [includes].
  - rewrite orb_false_r, startsWith_iff. split.
    + intros (rest & H). now exists EmptyString, rest.
    + intros ([|b before] & after & H); [now exists after|discriminate].
  - rewrite orb_true_iff, startsWith_iff, IH. split.
    + intros [(rest & H) | (before & after & H)].
      * now exists EmptyString, rest.
      * exists (String c before), after. simpl. now rewrite H.
    + intros ([|b before] & after & H).
      * left. now exists after.
      * right. simpl in H. injection H as _ H. now exists before, after.
Qed.

Lemma count_matches_from_pos (t : string) (fuel : nat) (s : string) :
  (String.length s < fuel)%nat ->
  (0 <? count_matches_from fuel s t)%nat = includes s t.
Proof.
  revert s. induction fuel as [|fuel IH]; intros s Hlen; [lia|].
  cbn [count_matches_from].
  destruct s as [|c r]; cbn [includes].
  - destruct (startsWith EmptyString t); reflexivity.
  - destruct (startsWith (String c r) t); [reflexivity|].
    cbn [orb]. apply IH. simpl in Hlen. lia.
Qed.

Lemma has_url_entry_iff (content : string) :
  (0 <? count_matches content "<loc>")%nat = includes content "<loc>".
Proof.
  unfold count_matches. apply count_matches_from_pos. lia.
Qed.

Lemma tag_points_includes (content tag : string) :
  Spec.tag_points content tag (if includes content tag then 25 else 0).
Proof.
  destruct (includes content tag) eqn:E.
  - apply Spec.tag_found. now apply includes_iff.
  - apply Spec.tag_missing. rewrite <- includes_iff. congruence.
Qed.

(** C7 (as amended).  Without a sitemap (or with an empty one) the finding
    is 0 and fail.  Otherwise the score is 50, plus 25 if the text contains
    a [<loc>], plus 25 if the text contains a [<lastmod>] anywhere; it never
    exceeds 100.  One [<loc>] and no [<lastmod>] scores 75, and with a
    [<lastmod>] 100. *)
Theorem C7_sitemap_score :
  (forall pageCount,
      score (GeoAuditor.auditSitemap None pageCount) = 0
      /\ status (GeoAuditor.auditSitemap None pageCount) = fail)
  /\ (forall pageCount,
         score (GeoAuditor.auditSitemap (Some EmptyString) pageCount) = 0
         /\ status (GeoAuditor.auditSitemap (Some EmptyString) pageCount)
            = fail)
  /\ (forall c rest pageCount,
         exists url dated,
           Spec.tag_points (String c rest) "<loc>" url
           /\ Spec.tag_points (String c rest) "<lastmod>" dated
           /\ score (GeoAuditor.auditSitemap (Some (String c rest)) pageCount)
              = 50 + url + dated
           /\ score (GeoAuditor.auditSitemap (Some (String c rest)) pageCount)
              <= 100)
  /\ score (GeoAuditor.auditSitemap (Some Samples.sitemap_one_loc) 1) = 75
  /\ score (GeoAuditor.auditSitemap (Some Samples.sitemap_one_loc_lastmod) 1)
     = 100.
Proof.
  split; [intro; split; reflexivity|].
  split; [intro; split; reflexivity|].
  split; [|split; vm_compute; reflexivity].
  intros c rest pageCount.
  exists (if includes (String c rest) "<loc>" then 25 else 0),
    (if includes (String c rest) "<lastmod>" then 25 else 0).
  split; [apply tag_points_includes|].
  split; [apply tag_points_includes|].
  unfold GeoAuditor.auditSitemap. cbv zeta. cbn [score].
  rewrite has_url_entry_iff.
  destruct (includes (String c rest) "<loc>"),
    (includes (String c rest) "<lastmod>"); split;
    first [reflexivity | discriminate].
Qed.

(** C7 as stated fails: of two entries only the first is dated, yet the
    score is 100, where 50 + 25 + 25-if-every-entry-is-dated gives 75. *)
Lemma C7_counterexample :
  Spec.entries Samples.sitemap_half_dated
  = [ "loc>https://example.com/a</loc><lastmod>2025-01-01</lastmod></url><url>";
      "loc>https://example.com/b</loc></url></urlset>" ]
  /\ Spec.every_entry_dated Samples.sitemap_half_dated = false
  /\ Spec.sitemap_score_by_entry Samples.sitemap_half_dated = 75
  /\ score (GeoAuditor.auditSitemap (Some Samples.sitemap_half_dated) 2) = 100.
Proof. repeat split; vm_compute; reflexivity. Qed.

(** ** Counts, fractions and rounding *)

Lemma count_if_from {A : Type} (p : A -> bool) (xs : list A) (n : nat) :
  fold_left (fun n x => if p x then S n else n) xs n
  = (n + List.length (filter p xs))%nat.
Proof.
  revert n. induction xs as [|x r IH]; intro n; simpl; [lia|].
  rewrite IH. destruct (p x); simpl; lia.
Qed.

Lemma count_if_filter {A : Type} (p : A -> bool) (xs : list A) :
  count_if p xs = List.length (filter p xs).
Proof. unfold count_if. now rewrite count_if_from. Qed.

Lemma count_if_le {A : Type} (p : A -> bool) (xs : list A) :
  (count_if p xs <= List.length xs)%nat.
Proof. rewrite count_if_filter. apply filter_length_le. Qed.

Lemma count_if_le_filter {A : Type} (p q : A -> bool) (xs : list A) :
  (forall x, p x = true -> q x = true) ->
  (count_if p xs <= List.length (filter q xs))%nat.
Proof.
  intro Hpq. rewrite count_if_filter.
  induction xs as [|x r IH]; simpl; [lia|].
  destruct (p x) eqn:Ep.
  - rewrite (Hpq x Ep). simpl. lia.
  - destruct (q x); simpl; lia.
Qed.

Lemma of_nat_nonneg (n : nat) : 0 <= of_nat n.
Proof. unfold of_nat. rewrite <- (Zle_Qle 0). lia. Qed.

Lemma of_nat_pos (n : nat) : (0 < n)%nat -> 0 < of_nat n.
Proof. intro H. unfold of_nat. rewrite <- (Zlt_Qlt 0). lia. Qed.

Lemma ratio_nonneg (n m : nat) : 0 <= of_nat n / of_nat m.
Proof.
  unfold Qdiv. apply Qmult_le_0_compat; [apply of_nat_nonneg|].
  apply Qinv_le_0_compat, of_nat_nonneg.
Qed.

Lemma ratio_le_1 (n m : nat) : (n <= m)%nat -> of_nat n / of_nat m <= 1.
Proof.
  intro Hle. destruct m as [|m].
  - assert (n = 0%nat) by lia. subst. discriminate.
  - apply Qle_shift_div_r; [apply of_nat_pos; lia|].
    rewrite Qmult_1_l. unfold of_nat. rewrite <- Zle_Qle. lia.
Qed.

Lemma fraction_of_range (n : nat) (pages : list PageData) :
  (n <= List.length pages)%nat ->
  0 <= GeoAuditor.fraction_of n pages /\ GeoAuditor.fraction_of n pages <= 1.
Proof.
  intro Hle. unfold GeoAuditor.fraction_of.
  destruct (0 <? List.length pages)%nat.
  - split; [apply ratio_nonneg | now apply ratio_le_1].
  - split; discriminate.
Qed.

Lemma round_range (lo hi : Z) (x : Q) :
  inject_Z lo <= x -> x <= inject_Z hi ->
  inject_Z lo <= inject_Z (Math_round x)
  /\ inject_Z (Math_round x) <= inject_Z hi.
Proof.
  intros Hlo Hhi. rewrite <- !Zle_Qle.
  apply Math_round_mono in Hlo, Hhi.
  rewrite Math_round_inject_Z in Hlo, Hhi. auto.
Qed.

Lemma round_percentage (x : Q) :
  0 <= x -> x <= 1 ->
  0 <= inject_Z (Math_round (x * 100))
  /\ inject_Z (Math_round (x * 100)) <= 100.
Proof.
  intros H0 H1.
  apply (round_range 0 100);
    [change (0 <= x * 100) | change (x * 100 <= 100)]; lra.
Qed.

Lemma Math_min_l (x y : Q) : Math_min x y <= x.
Proof.
  unfold Math_min. destruct (Qle_bool x y) eqn:E; [apply Qle_refl|].
  apply Qle_bool_false_iff in E. now apply Qlt_le_weak.
Qed.

Lemma Math_min_r (x y : Q) : Math_min x y <= y.
Proof.
  unfold Math_min. destruct (Qle_bool x y) eqn:E; [|apply Qle_refl].
  now apply Qle_bool_iff.
Qed.

Lemma Math_min_glb (x y z : Q) : z <= x -> z <= y -> z <= Math_min x y.
Proof. intros. unfold Math_min. now destruct (Qle_bool x y). Qed.

Lemma Math_max_l (x y : Q) : x <= Math_max x y.
Proof.
  unfold Math_max. destruct (Qle_bool x y) eqn:E; [|apply Qle_refl].
  now apply Qle_bool_iff.
Qed.

Lemma Math_max_lub (x y z : Q) : x <= z -> y <= z -> Math_max x y <= z.
Proof. intros. unfold Math_max. now destruct (Qle_bool x y). Qed.

Lemma status_listed (s : Status) : In s [pass; partial; fail; not_applicable].
Proof. destruct s; simpl; tauto. Qed.

(** A finding with maximum 100 is well formed once its score is in range. *)
Lemma well_formed_intro (it : AuditItem) :
  maxScore it = 100 -> 0 <= score it -> score it <= 100 ->
  Spec.well_formed it.
Proof.
  intros Hmax H0 H100. unfold Spec.well_formed. rewrite Hmax.
  auto using status_listed.
Qed.

Lemma shape_maxScore (it : AuditItem) (c : Category) :
  shape it = (c, 100) -> maxScore it = 100.
Proof. unfold shape. intro H. now injection H. Qed.

(** ** Every evaluator keeps its score between 0 and 100 *)

Lemma in_range_round (x : Q) :
  0 <= x -> x <= 100 -> in_range (inject_Z (Math_round x)).
Proof. intros. now apply (round_range 0 100). Qed.

Lemma in_range_percentage (x : Q) :
  0 <= x -> x <= 1 -> in_range (inject_Z (Math_round (x * 100))).
Proof. intros. now apply round_percentage. Qed.

Lemma in_range_well_formed (it : AuditItem) (c : Category) :
  shape it = (c, 100) -> in_range (score it) -> Spec.well_formed it.
Proof.
  intros Hshape [H0 H100].
  apply well_formed_intro; eauto using shape_maxScore.
Qed.

Lemma presence_item_range file n c f m g a :
  in_range (score (GeoAuditor.presence_item file n c f m g a)).
Proof.
  unfold GeoAuditor.presence_item; cbn [score].
  destruct (truthy file); const_in_range.
Qed.

Lemma auditRobotsTxt_range content :
  in_range (score (GeoAuditor.auditRobotsTxt content)).
Proof.
  unfold GeoAuditor.auditRobotsTxt.
  destruct content as [[|c s]|]; try const_in_range. cbv zeta.
  match goal with
  | |- context [filter ?p ?l] => set (mentioned := filter p l)
  end.
  destruct (List.length mentioned =? 0)%nat; [const_in_range|].
  cbn [score]. apply in_range_round; [|apply Math_min_l].
  apply Math_min_glb; [discriminate|].
  pose proof (ratio_nonneg (List.length mentioned) 5) as H.
  change (0 <= 30 + of_nat (List.length mentioned) / of_nat 5 * 70). lra.
Qed.

Lemma auditSitemap_range content n :
  in_range (score (GeoAuditor.auditSitemap content n)).
Proof.
  unfold GeoAuditor.auditSitemap.
  destruct content as [[|c s]|]; try const_in_range. cbv zeta. cbn [score].
  destruct (0 <? _)%nat, (includes _ "<lastmod>"); const_in_range.
Qed.

Lemma auditLlmsTxt_range content :
  in_range (score (GeoAuditor.auditLlmsTxt content)).
Proof.
  unfold GeoAuditor.auditLlmsTxt.
  destruct content as [[|c s]|]; try const_in_range. cbv zeta. cbn [score].
  destruct (marked_line "# " _), (marked_line "> " _), (marked_line "## " _),
    (has_markdown_link _); const_in_range.
Qed.

Lemma auditStructuredData_range cr :
  in_range (score (GeoAuditor.auditStructuredData cr)).
Proof.
  unfold GeoAuditor.auditStructuredData. cbv zeta.
  destruct (_ =? 0)%nat; [const_in_range|]. cbn [score].
  split; [|apply Math_min_l].
  apply Math_min_glb; [discriminate|].
  set (coverage := GeoAuditor.fraction_of _ _).
  assert (Hc : 0 <= coverage /\ coverage <= 1)
    by (apply fraction_of_range, count_if_le).
  assert (Hbase : 0 <= Math_min 50 (inject_Z (Math_round (coverage * 50)))).
  { apply Math_min_glb; [discriminate|].
    apply (round_range 0 50); [change (0 <= coverage * 50)
                              | change (coverage * 50 <= 50)]; lra. }
  destruct (existsb (String.eqb "Organization") _),
    (existsb (String.eqb "WebSite") _), (3 <=? _)%nat; lra.
Qed.

Lemma auditServerRendering_range cr :
  in_range (score (GeoAuditor.auditServerRendering cr)).
Proof.
  unfold GeoAuditor.auditServerRendering. cbv zeta. cbn [score].
  apply in_range_percentage; apply fraction_of_range, count_if_le.
Qed.

Lemma auditAiPolicy_range t j :
  in_range (score (GeoAuditor.auditAiPolicy t j)).
Proof.
  unfold GeoAuditor.auditAiPolicy. cbv zeta.
  destruct (truthy t), (truthy j); const_in_range.
Qed.

Lemma auditMetaDescriptions_range cr :
  in_range (score (GeoAuditor.auditMetaDescriptions cr)).
Proof.
  unfold GeoAuditor.auditMetaDescriptions. cbv zeta. cbn [score].
  apply in_range_percentage; apply fraction_of_range, count_if_le.
Qed.

Lemma correct_page_has_headings (page : PageData) :
  GeoAuditor.correctHierarchy_page page = true ->
  GeoAuditor.hasHeadings page = true.
Proof.
  unfold GeoAuditor.correctHierarchy_page, GeoAuditor.hasHeadings.
  destruct (headings (content page)); [discriminate | reflexivity].
Qed.

Lemma auditHeadingHierarchy_range cr :
  in_range (score (GeoAuditor.auditHeadingHierarchy cr)).
Proof.
  unfold GeoAuditor.auditHeadingHierarchy. cbv zeta. cbn [score].
  pose proof (count_if_le_filter _ _ (pages cr) correct_page_has_headings)
    as Hle.
  destruct (0 <? _)%nat.
  - apply in_range_percentage; [apply ratio_nonneg | now apply ratio_le_1].
  - const_in_range.
Qed.

Lemma auditOpenGraph_range cr :
  in_range (score (GeoAuditor.auditOpenGraph cr)).
Proof.
  unfold GeoAuditor.auditOpenGraph. cbv zeta. cbn [score].
  apply in_range_percentage; apply fraction_of_range, count_if_le.
Qed.

Lemma round_nonneg (x : Q) : 0 <= x -> 0 <= inject_Z (Math_round x).
Proof.
  intro H. rewrite <- (Zle_Qle 0).
  apply Math_round_mono in H.
  pose proof (Math_round_inject_Z 0) as E. change (inject_Z 0) with 0 in E.
  now rewrite E in H.
Qed.

Lemma auditAiContentDirectives_range cr :
  in_range (score (GeoAuditor.auditAiContentDirectives cr)).
Proof.
  unfold GeoAuditor.auditAiContentDirectives. cbv zeta. cbn [score].
  set (withMaxSnippet :=
         count_if (fun page => includes _ "max-snippet") (pages cr)).
  set (withMaxImagePreview :=
         count_if (fun page => includes _ "max-image-preview") (pages cr)).
  set (coverage := if (0 <? List.length (pages cr))%nat then _ else _).
  assert (Hc : 0 <= coverage /\ coverage <= 1).
  { subst coverage. destruct (0 <? _)%nat; [|split; discriminate].
    split; [apply ratio_nonneg|]. apply ratio_le_1.
    apply Nat.max_lub; apply count_if_le. }
  set (factor := Math_max coverage _).
  assert (Hf : 0 <= factor /\ factor <= 1).
  { subst factor. split.
    - eapply Qle_trans; [apply Hc | apply Math_max_l].
    - apply Math_max_lub; [apply Hc|].
      destruct (_ || _); discriminate. }
  apply in_range_round;
    destruct (0 <? withMaxSnippet)%nat, (0 <? withMaxImagePreview)%nat;
    lra.
Qed.

Lemma auditAiBotBlocking_range content :
  in_range (score (GeoAuditor.auditAiBotBlocking content)).
Proof.
  unfold GeoAuditor.auditAiBotBlocking.
  destruct content as [[|c s]|]; try const_in_range. cbv zeta.
  destruct (_ =? 0)%nat; [const_in_range|]. cbn [score].
  set (blockedPct := of_nat _ / of_nat _).
  assert (Hp : 0 <= blockedPct) by apply ratio_nonneg.
  apply in_range_round; [apply Math_max_l|].
  apply Math_max_lub; [discriminate | lra].
Qed.

Lemma auditContentFreshness_range env cr :
  in_range (score (GeoAuditor.auditContentFreshness env cr)).
Proof.
  unfold GeoAuditor.auditContentFreshness. cbv zeta.
  destruct (_ =? 0)%nat; [const_in_range|]. cbn [score].
  split; [|apply Math_min_l].
  apply Math_min_glb; [discriminate|].
  set (dateCoverage := of_nat _ / of_nat (List.length (pages cr))).
  set (recencyRatio := if (0 <? _)%nat then _ else _).
  set (jsonLdDateRatio := GeoAuditor.fraction_of _ _).
  assert (H1 : 0 <= dateCoverage) by apply ratio_nonneg.
  assert (H2 : 0 <= recencyRatio).
  { subst recencyRatio. destruct (0 <? _)%nat;
      [apply ratio_nonneg | discriminate]. }
  assert (H3 : 0 <= jsonLdDateRatio)
    by (apply fraction_of_range, count_if_le).
  apply round_nonneg. lra.
Qed.

Lemma auditContentDepth_range cr :
  in_range (score (GeoAuditor.auditContentDepth cr)).
Proof.
  unfold GeoAuditor.auditContentDepth. cbv zeta.
  destruct (_ =? 0)%nat; [const_in_range|]. cbn [score].
  split; [|apply Math_min_l].
  apply Math_min_glb; [discriminate|].
  set (thinRatio := of_nat (count_if GeoAuditor.isThin _) / _).
  set (depthRatio :=
         of_nat (count_if GeoAuditor.isSubstantive _) / of_nat (List.length _)).
  set (structureRatio := if (0 <? _)%nat then _ else _).
  assert (H1 : thinRatio <= 1) by apply ratio_le_1, count_if_le.
  assert (H2 : 0 <= depthRatio) by apply ratio_nonneg.
  assert (H3 : 0 <= structureRatio).
  { subst structureRatio. destruct (0 <? _)%nat;
      [apply ratio_nonneg | discriminate]. }
  apply round_nonneg. lra.
Qed.

Lemma auditFAQContent_range cr :
  in_range (score (GeoAuditor.auditFAQContent cr)).
Proof.
  unfold GeoAuditor.auditFAQContent. cbv zeta.
  destruct (_ =? 0)%nat; [const_in_range|]. cbn [score].
  split; [|apply Math_min_l].
  apply Math_min_glb; [discriminate|].
  set (totalFAQs := fold_left _ _ _).
  assert (Hbase : 0 <= Math_min 60 (of_nat totalFAQs * 15)).
  { apply Math_min_glb; [discriminate|].
    pose proof (of_nat_nonneg totalFAQs). lra. }
  destruct (existsb _ _); lra.
Qed.

Lemma auditSearchIndexing_range cr :
  in_range (score (GeoAuditor.auditSearchIndexing cr)).
Proof.
  unfold GeoAuditor.auditSearchIndexing. cbv zeta. cbn [score].
  set (canonicalCoverage := GeoAuditor.fraction_of _ _).
  assert (Hc : 0 <= canonicalCoverage /\ canonicalCoverage <= 1)
    by (apply fraction_of_range, filter_length_le).
  assert (Hr : 0 <= inject_Z (Math_round (20 * canonicalCoverage))
               /\ inject_Z (Math_round (20 * canonicalCoverage)) <= 20).
  { apply (round_range 0 20);
      [change (0 <= 20 * canonicalCoverage)
      | change (20 * canonicalCoverage <= 20)]; lra. }
  destruct (existsb (fun p => truthy (googleVerification (meta p))) _),
    (existsb (fun p => truthy (bingVerification (meta p))) _ || _),
    (has_sitemap_directive _), (_ =? 0)%nat,
    (Qle_bool (8 # 10) canonicalCoverage),
    (Qlt_bool 0 canonicalCoverage);
    cbn [GeoAuditor.ix_score GeoAuditor.found GeoAuditor.lacking];
    split; lra.
Qed.

Lemma audit_items_count env cr :
  List.length (GeoAuditor.audit_items env cr) = 20%nat.
Proof. reflexivity. Qed.

(** C5. Every finding [auditSite] produces, whichever evaluator it comes
    from, has 0 <= score <= maxScore = 100 and one of the four statuses. *)
Theorem C5_findings_well_formed (env : Env) (cr : SiteCrawlResult) :
  Forall Spec.well_formed (items (GeoAuditor.auditSite env cr)).
Proof.
  unfold GeoAuditor.auditSite. cbv zeta. cbn [items].
  unfold GeoAuditor.audit_items. cbv zeta.
  repeat apply Forall_cons; [..|apply Forall_nil].
  - eapply in_range_well_formed;
      [apply auditRobotsTxt_shape | apply auditRobotsTxt_range].
  - eapply in_range_well_formed;
      [apply auditSitemap_shape | apply auditSitemap_range].
  - eapply in_range_well_formed;
      [apply auditLlmsTxt_shape | apply auditLlmsTxt_range].
  - eapply in_range_well_formed;
      [apply auditStructuredData_shape | apply auditStructuredData_range].
  - eapply in_range_well_formed;
      [apply auditServerRendering_shape | apply auditServerRendering_range].
  - eapply in_range_well_formed;
      [apply auditAiBotBlocking_shape | apply auditAiBotBlocking_range].
  - eapply in_range_well_formed;
      [apply auditSearchIndexing_shape | apply auditSearchIndexing_range].
  - eapply in_range_well_formed;
      [apply presence_item_shape | apply presence_item_range].
  - eapply in_range_well_formed;
      [apply auditAiPolicy_shape | apply auditAiPolicy_range].
  - eapply in_range_well_formed;
      [apply auditMetaDescriptions_shape | apply auditMetaDescriptions_range].
  - eapply in_range_well_formed;
      [apply auditHeadingHierarchy_shape | apply auditHeadingHierarchy_range].
  - eapply in_range_well_formed;
      [apply auditContentFreshness_shape | apply auditContentFreshness_range].
  - eapply in_range_well_formed;
      [apply auditContentDepth_shape | apply auditContentDepth_range].
  - eapply in_range_well_formed;
      [apply presence_item_shape | apply presence_item_range].
  - eapply in_range_well_formed;
      [apply presence_item_shape | apply presence_item_range].
  - eapply in_range_well_formed;
      [apply auditOpenGraph_shape | apply auditOpenGraph_range].
  - eapply in_range_well_formed;
      [apply auditAiContentDirectives_shape
      | apply auditAiContentDirectives_range].
  - eapply in_range_well_formed;
      [apply presence_item_shape | apply presence_item_range].
  - eapply in_range_well_formed;
      [apply presence_item_shape | apply presence_item_range].
  - eapply in_range_well_formed;
      [apply auditFAQContent_shape | apply auditFAQContent_range].
Qed.

(** ** A crawl without pages *)




(** ** The scenarios of the specification and of the test suite *)

Example robots_without_ai_crawlers :
  score (GeoAuditor.auditRobotsTxt (Some Samples.robots_allow_all)) = 30
  /\ score (GeoAuditor.auditAiBotBlocking (Some Samples.robots_allow_all))
     = 100.
Proof. split; vm_compute; reflexivity. Qed.

Example no_robots_txt :
  score (GeoAuditor.auditRobotsTxt None) = 0
  /\ score (GeoAuditor.auditAiBotBlocking None) = 100.
Proof. split; reflexivity. Qed.

Example two_crawlers_blocked :
  GeoAuditor.blocked_crawlers Samples.robots_two_blocked
  = ["GPTBot"; "ClaudeBot"]
  /\ score (GeoAuditor.auditAiBotBlocking (Some Samples.robots_two_blocked))
     = 85
  /\ status (GeoAuditor.auditAiBotBlocking (Some Samples.robots_two_blocked))
     = partial.
Proof. repeat split; vm_compute; reflexivity. Qed.

(** A wildcard block spares only the crawler with an [Allow: /] of its
    own. *)
Example wildcard_blocks_the_rest :
  List.length (GeoAuditor.blocked_crawlers Samples.robots_wildcard_block)
  = 12%nat
  /\ score (GeoAuditor.auditAiBotBlocking (Some Samples.robots_wildcard_block))
     = 8
  /\ status
       (GeoAuditor.auditAiBotBlocking (Some Samples.robots_wildcard_block))
     = fail.
Proof. repeat split; vm_compute; reflexivity. Qed.

Example llms_txt_scores :
  score (GeoAuditor.auditLlmsTxt (Some Samples.llms_complete)) = 100
  /\ score (GeoAuditor.auditLlmsTxt (Some Samples.llms_title_only)) = 55.
Proof. split; vm_compute; reflexivity. Qed.

(** An audit of a crawl without pages and without files: 20 findings, one
    of them passing. *)
Example empty_crawl_audit :
  let result :=
    GeoAuditor.auditSite (mkEnv 0 (fun _ => None)) Samples.empty_crawl in
  overallScore result = 9 /\ grade result = "F"
  /\ summary result
     = mkSummary (mkTally 1 7) (mkTally 0 6) (mkTally 0 5) (mkTally 0 2).
Proof. repeat split; vm_compute; reflexivity. Qed.

(** * Further properties of the code *)

(** ** The summary counts *)

Lemma summary_get_set_same (s : Summary) (c : Category) (t : Tally) :
  summary_get (summary_set s c t) c = t.
Proof. now destruct c. Qed.

Lemma summary_get_set_other (s : Summary) (c d : Category) (t : Tally) :
  same_tier c d = false -> summary_get (summary_set s c t) d = summary_get s d.
Proof. destruct c, d; simpl; congruence. Qed.

Lemma same_tier_refl (c : Category) : same_tier c c = true.
Proof. now destruct c. Qed.

Lemma score_loop_tally_from (w : Category -> number) (c : Category)
    (its : list AuditItem) (acc : Totals) :
  summary_get (tally (fold_left (score_loop_body w) its acc)) c
  = mkTally (passed (summary_get (tally acc) c) + tier_passed c its)
            (total (summary_get (tally acc) c) + tier_total c its).
Proof.
  revert acc. unfold tier_passed, tier_total.
  induction its as [|it rest IH]; intro acc.
  - simpl. rewrite !Nat.add_0_r. now destruct (summary_get (tally acc) c).
  - cbn [fold_left filter]. rewrite IH.
    unfold score_loop_body. cbn [tally].
    destruct (same_tier (category it) c) eqn:E.
    + assert (category it = c) by (destruct (category it), c; easy). subst c.
      rewrite summary_get_set_same. cbn [andb].
      destruct (counts_as_passed (status it)); cbn [passed total List.length];
        f_equal; lia.
    + rewrite (summary_get_set_other _ _ _ _ E). cbn [andb]. reflexivity.
Qed.

Lemma score_loop_tally (w : Category -> number) (c : Category)
    (its : list AuditItem) :
  summary_get (tally (score_loop w its)) c
  = mkTally (tier_passed c its) (tier_total c its).
Proof. unfold score_loop. rewrite score_loop_tally_from. now destruct c. Qed.

Lemma tier_passed_le_total (c : Category) (its : list AuditItem) :
  (tier_passed c its <= tier_total c its)%nat.
Proof.
  unfold tier_passed, tier_total.
  induction its as [|it rest IH]; simpl; [lia|].
  destruct (same_tier (category it) c); simpl; [|exact IH].
  destruct (counts_as_passed (status it)); simpl; lia.
Qed.

Lemma tier_totals_sum (its : list AuditItem) :
  (tier_total critical its + tier_total high its + tier_total medium its
   + tier_total low its = List.length its)%nat.
Proof.
  unfold tier_total. induction its as [|it rest IH]; simpl; [reflexivity|].
  destruct (category it); simpl; lia.
Qed.

(** X1. The summary of an audit, original or projected, counts per tier
    the findings of that tier and those of them with status pass or partial;
    so passed never exceeds total and the four totals add up to the number
    of findings. *)
Theorem X1_summary_counts :
  (forall env cr, summary_agrees (GeoAuditor.auditSite env cr))
  /\ (forall before,
         summary_agrees (ComparisonReport.generateProjectedAudit before)).
Proof.
  assert (H : forall r,
             (forall c, summary_get (summary r) c
                        = mkTally (tier_passed c (items r))
                                  (tier_total c (items r))) ->
             summary_agrees r).
  { intros r Hsum. split.
    - intro c. rewrite Hsum. cbn [passed total].
      auto using tier_passed_le_total.
    - change (s_critical (summary r)) with (summary_get (summary r) critical).
      change (s_high (summary r)) with (summary_get (summary r) high).
      change (s_medium (summary r)) with (summary_get (summary r) medium).
      change (s_low (summary r)) with (summary_get (summary r) low).
      rewrite !Hsum. cbn [total]. apply tier_totals_sum. }
  split.
  - intros env cr. apply H. intro c. apply score_loop_tally.
  - intros before. apply H. intro c. apply score_loop_tally.
Qed.

(** ** Range and growth of the overall score *)

Lemma audit_items_well_formed env cr :
  Forall Spec.well_formed (GeoAuditor.audit_items env cr).
Proof.
  unfold GeoAuditor.audit_items. cbv zeta.
  repeat apply Forall_cons; [..|apply Forall_nil].
  - exact (in_range_well_formed _ _ (auditRobotsTxt_shape _)
             (auditRobotsTxt_range _)).
  - exact (in_range_well_formed _ _ (auditSitemap_shape _ _)
             (auditSitemap_range _ _)).
  - exact (in_range_well_formed _ _ (auditLlmsTxt_shape _)
             (auditLlmsTxt_range _)).
  - exact (in_range_well_formed _ _ (auditStructuredData_shape _)
             (auditStructuredData_range _)).
  - exact (in_range_well_formed _ _ (auditServerRendering_shape _)
             (auditServerRendering_range _)).
  - exact (in_range_well_formed _ _ (auditAiBotBlocking_shape _)
             (auditAiBotBlocking_range _)).
  - exact (in_range_well_formed _ _ (auditSearchIndexing_shape _)
             (auditSearchIndexing_range _)).
  - exact (in_range_well_formed _ _ (presence_item_shape _ _ _ _ _ _ _)
             (presence_item_range _ _ _ _ _ _ _)).
  - exact (in_range_well_formed _ _ (auditAiPolicy_shape _ _)
             (auditAiPolicy_range _ _)).
  - exact (in_range_well_formed _ _ (auditMetaDescriptions_shape _)
             (auditMetaDescriptions_range _)).
  - exact (in_range_well_formed _ _ (auditHeadingHierarchy_shape _)
             (auditHeadingHierarchy_range _)).
  - exact (in_range_well_formed _ _ (auditContentFreshness_shape _ _)
             (auditContentFreshness_range _ _)).
  - exact (in_range_well_formed _ _ (auditContentDepth_shape _)
             (auditContentDepth_range _)).
  - exact (in_range_well_formed _ _ (presence_item_shape _ _ _ _ _ _ _)
             (presence_item_range _ _ _ _ _ _ _)).
  - exact (in_range_well_formed _ _ (presence_item_shape _ _ _ _ _ _ _)
             (presence_item_range _ _ _ _ _ _ _)).
  - exact (in_range_well_formed _ _ (auditOpenGraph_shape _)
             (auditOpenGraph_range _)).
  - exact (in_range_well_formed _ _ (auditAiContentDirectives_shape _)
             (auditAiContentDirectives_range _)).
  - exact (in_range_well_formed _ _ (presence_item_shape _ _ _ _ _ _ _)
             (presence_item_range _ _ _ _ _ _ _)).
  - exact (in_range_well_formed _ _ (presence_item_shape _ _ _ _ _ _ _)
             (presence_item_range _ _ _ _ _ _ _)).
  - exact (in_range_well_formed _ _ (auditFAQContent_shape _)
             (auditFAQContent_range _)).
Qed.

Lemma weighted_sum_le (f g : AuditItem -> Q) (its : list AuditItem) :
  Forall (fun it => f it <= g it) its ->
  Spec.weighted_sum f its <= Spec.weighted_sum g its.
Proof.
  induction 1 as [|it rest Hit _ IH]; simpl; [apply Qle_refl|].
  apply Qplus_le_compat; [|exact IH].
  apply Qmult_le_compat_r; [exact Hit|].
  apply Qlt_le_weak, tier_weight_pos.
Qed.

Lemma weighted_sum_nonneg (f : AuditItem -> Q) (its : list AuditItem) :
  Forall (fun it => 0 <= f it) its -> 0 <= Spec.weighted_sum f its.
Proof.
  induction 1 as [|it rest Hit _ IH]; simpl; [apply Qle_refl|].
  rewrite <- (Qplus_0_r 0). apply Qplus_le_compat; [|exact IH].
  apply Qmult_le_0_compat; [exact Hit|].
  apply Qlt_le_weak, tier_weight_pos.
Qed.

Lemma percentage_range (s d : Q) :
  0 <= s -> s <= d -> 0 < d -> 0 <= s / d /\ s / d <= 1.
Proof.
  intros Hs Hsd Hd. split.
  - apply Qle_shift_div_l; [exact Hd|]. now rewrite Qmult_0_l.
  - apply Qle_shift_div_r; [exact Hd|]. now rewrite Qmult_1_l.
Qed.

Lemma overall_in_range (its : list AuditItem) :
  Forall Spec.well_formed its -> in_range (inject_Z (Spec.overall its)).
Proof.
  intro Hwf. unfold Spec.overall.
  destruct (Qeq_bool (Spec.weighted_sum maxScore its) 0) eqn:Hz;
    [split; discriminate|].
  apply Qeq_bool_neq in Hz.
  assert (Hs : 0 <= Spec.weighted_sum score its).
  { apply weighted_sum_nonneg. eapply Forall_impl; [|exact Hwf].
    intros it H. apply H. }
  assert (Hsd : Spec.weighted_sum score its <= Spec.weighted_sum maxScore its).
  { apply weighted_sum_le. eapply Forall_impl; [|exact Hwf].
    intros it H. apply H. }
  assert (Hd : 0 < Spec.weighted_sum maxScore its).
  { apply Qle_lt_or_eq in Hsd. apply Qle_lt_or_eq in Hs.
    destruct Hs as [Hs | Hs]; destruct Hsd as [Hsd | Hsd].
    - now apply Qlt_trans with (Spec.weighted_sum score its).
    - now rewrite <- Hsd.
    - now rewrite Hs.
    - exfalso. apply Hz. now rewrite <- Hsd, <- Hs. }
  apply in_range_percentage; now apply percentage_range.
Qed.

Lemma table_targets_in_range (n : string) (imp : ComparisonReport.Improvement) :
  ComparisonReport.lookup n ComparisonReport.PROJECTED_IMPROVEMENTS = Some imp ->
  70 <= ComparisonReport.imp_score imp /\ ComparisonReport.imp_score imp <= 100.
Proof.
  intro H. apply lookup_In in H. simpl in H.
  repeat (destruct H as [H | H];
          [injection H as _ <-; split; discriminate|]).
  contradiction.
Qed.

Lemma project_item_category (item : AuditItem) :
  category (ComparisonReport.project_item item) = category item.
Proof.
  unfold ComparisonReport.project_item.
  destruct (ComparisonReport.lookup _ _) as [imp|]; [|reflexivity].
  destruct (Qlt_bool _ _); reflexivity.
Qed.

Lemma project_item_name (item : AuditItem) :
  name (ComparisonReport.project_item item) = name item.
Proof.
  unfold ComparisonReport.project_item.
  destruct (ComparisonReport.lookup _ _) as [imp|]; [|reflexivity].
  destruct (Qlt_bool _ _); reflexivity.
Qed.

Lemma project_item_well_formed (item : AuditItem) :
  Spec.well_formed item -> Spec.well_formed (ComparisonReport.project_item item).
Proof.
  intros (H0 & Hle & Hmax & _).
  unfold ComparisonReport.project_item.
  destruct (ComparisonReport.lookup _ _) as [imp|] eqn:Hl;
    [|apply well_formed_intro; [exact Hmax | exact H0 | now rewrite <- Hmax]].
  destruct (Qlt_bool _ _);
    [|apply well_formed_intro; [exact Hmax | exact H0 | now rewrite <- Hmax]].
  apply table_targets_in_range in Hl. destruct Hl as [H70 H100].
  apply well_formed_intro; cbn [score maxScore]; [exact Hmax| |exact H100].
  apply Qle_trans with 70; [discriminate | exact H70].
Qed.

Lemma well_formed_max_nonneg (its : list AuditItem) :
  Forall Spec.well_formed its -> Forall (fun it => 0 <= maxScore it) its.
Proof.
  apply Forall_impl. intros it (_ & _ & -> & _). discriminate.
Qed.

(** X2. The overall score of [auditSite] lies between 0 and 100.  The
    projection of well-formed findings is a list of well-formed findings,
    and its overall score lies between 0 and 100 too. *)
Theorem X2_overall_score_range :
  (forall env cr, in_range (overallScore (GeoAuditor.auditSite env cr)))
  /\ (forall before,
         Forall Spec.well_formed (items before) ->
         Forall Spec.well_formed
           (items (ComparisonReport.generateProjectedAudit before))
         /\ in_range
              (overallScore (ComparisonReport.generateProjectedAudit before))).
Proof.
  split.
  - intros env cr. unfold GeoAuditor.auditSite. cbv zeta. cbn [overallScore].
    rewrite (overall_of_loop _ weights_tier);
      [|apply weighted_max_nonneg, well_formed_max_nonneg,
          audit_items_well_formed].
    apply overall_in_range, audit_items_well_formed.
  - intros before Hwf.
    assert (Hwf' : Forall Spec.well_formed
                     (map ComparisonReport.project_item (items before))).
    { rewrite Forall_map. eapply Forall_impl; [|exact Hwf].
      exact project_item_well_formed. }
    unfold ComparisonReport.generateProjectedAudit. cbv zeta.
    cbn [overallScore items]. split; [exact Hwf'|].
    rewrite (overall_of_loop _ weight_or_default_tier);
      [|apply weighted_max_nonneg, well_formed_max_nonneg, Hwf'].
    now apply overall_in_range.
Qed.

Lemma X2_overall_score_range_witness :
  Forall Spec.well_formed (items Samples.two_findings)
  /\ in_range
       (overallScore
          (ComparisonReport.generateProjectedAudit Samples.two_findings)).
Proof.
  assert (H : Forall Spec.well_formed (items Samples.two_findings)).
  { repeat constructor; simpl; try discriminate; tauto. }
  split; [exact H|].
  exact (proj2 (proj2 X2_overall_score_range Samples.two_findings H)).
Defined.

Lemma Math_round_step (x y : Q) :
  x + 1 <= y -> (Math_round x + 1 <= Math_round y)%Z.
Proof.
  intro H. unfold Math_round.
  rewrite <- (Qfloor_Z (Qfloor (x + (1 # 2)) + 1)).
  apply Qfloor_resp_le. rewrite inject_Z_plus.
  pose proof (Qfloor_le (x + (1 # 2))) as Hf.
  change (inject_Z 1) with 1. lra.
Qed.

Lemma projected_sum_score (its : list AuditItem) :
  Spec.weighted_sum score its
  <= Spec.weighted_sum score (map ComparisonReport.project_item its).
Proof.
  induction its as [|it rest IH]; simpl; [apply Qle_refl|].
  rewrite project_item_category.
  apply Qplus_le_compat; [|exact IH].
  apply Qmult_le_compat_r; [apply project_item_score|].
  apply Qlt_le_weak, tier_weight_pos.
Qed.

Lemma projected_sum_max (its : list AuditItem) :
  Spec.weighted_sum maxScore (map ComparisonReport.project_item its)
  = Spec.weighted_sum maxScore its.
Proof.
  induction its as [|it rest IH]; simpl; [reflexivity|].
  now rewrite project_item_category, project_item_maxScore, IH.
Qed.

Lemma audit_items_max_sum env cr :
  Spec.weighted_sum maxScore (GeoAuditor.audit_items env cr) == 3900.
Proof.
  rewrite (weighted_sum_shape maxScore maxScore (GeoAuditor.audit_items env cr)
             (map shape_item (map shape (GeoAuditor.audit_items env cr)))).
  - rewrite audit_items_shape. reflexivity.
  - rewrite !map_map. apply map_ext. intro it. reflexivity.
Qed.

(** The overall score as a function of the weighted score sum, for the
    findings of [auditSite] and for their projection. *)
Lemma overall_of_audit_items env cr (its : list AuditItem) :
  Spec.weighted_sum maxScore its
  = Spec.weighted_sum maxScore (GeoAuditor.audit_items env cr) ->
  Spec.overall its = Math_round (Spec.weighted_sum score its / 39).
Proof.
  intro Hmax. unfold Spec.overall. rewrite Hmax.
  pose proof (audit_items_max_sum env cr) as H.
  destruct (Qeq_bool _ 0) eqn:Hz.
  - apply Qeq_bool_iff in Hz. rewrite H in Hz. discriminate.
  - apply Math_round_Qeq. rewrite H. field.
Qed.

Lemma auditSite_overall env cr :
  overallScore (GeoAuditor.auditSite env cr)
  = inject_Z
      (Math_round
         (Spec.weighted_sum score (GeoAuditor.audit_items env cr) / 39)).
Proof.
  unfold GeoAuditor.auditSite. cbv zeta. cbn [overallScore].
  rewrite (overall_of_loop _ weights_tier);
    [|apply weighted_max_nonneg, well_formed_max_nonneg,
        audit_items_well_formed].
  now rewrite (overall_of_audit_items env cr).
Qed.

Lemma projected_auditSite_overall env cr :
  overallScore
    (ComparisonReport.generateProjectedAudit (GeoAuditor.auditSite env cr))
  = inject_Z
      (Math_round
         (Spec.weighted_sum score
            (map ComparisonReport.project_item (GeoAuditor.audit_items env cr))
          / 39)).
Proof.
  unfold ComparisonReport.generateProjectedAudit. cbv zeta.
  cbn [overallScore].
  change (items (GeoAuditor.auditSite env cr))
    with (GeoAuditor.audit_items env cr).
  rewrite (overall_of_loop _ weight_or_default_tier).
  - rewrite (overall_of_audit_items env cr); [reflexivity|].
    apply projected_sum_max.
  - rewrite projected_sum_max.
    apply weighted_max_nonneg, well_formed_max_nonneg,
      audit_items_well_formed.
Qed.

Lemma missing_robots_gain env cr :
  truthy (robotsTxt (existingGeoFiles cr)) = false ->
  Spec.weighted_sum score (GeoAuditor.audit_items env cr) + 300
  <= Spec.weighted_sum score
       (map ComparisonReport.project_item (GeoAuditor.audit_items env cr)).
Proof.
  intro Hmissing.
  change (GeoAuditor.audit_items env cr)
    with (GeoAuditor.auditRobotsTxt (robotsTxt (existingGeoFiles cr))
            :: tl (GeoAuditor.audit_items env cr)).
  set (rest := tl (GeoAuditor.audit_items env cr)).
  pose proof (projected_sum_score rest) as Hrest.
  assert (Hr : GeoAuditor.auditRobotsTxt (robotsTxt (existingGeoFiles cr))
               = GeoAuditor.auditRobotsTxt None).
  { destruct (robotsTxt (existingGeoFiles cr)) as [[|c s]|];
      [reflexivity | discriminate | reflexivity]. }
  rewrite Hr. cbn [map Spec.weighted_sum].
  change (score (ComparisonReport.project_item (GeoAuditor.auditRobotsTxt None)))
    with 100.
  change (category
            (ComparisonReport.project_item (GeoAuditor.auditRobotsTxt None)))
    with critical.
  change (score (GeoAuditor.auditRobotsTxt None)) with 0.
  change (category (GeoAuditor.auditRobotsTxt None)) with critical.
  change (Spec.tier_weight critical) with 3. lra.
Qed.

(** X3. Projecting an audit of [auditSite] never lowers the overall
    score, and raises it when the site has no robots.txt. *)
Theorem X3_projection_raises_overall (env : Env) (cr : SiteCrawlResult) :
  overallScore (GeoAuditor.auditSite env cr)
  <= overallScore
       (ComparisonReport.generateProjectedAudit (GeoAuditor.auditSite env cr))
  /\ (truthy (robotsTxt (existingGeoFiles cr)) = false ->
      overallScore (GeoAuditor.auditSite env cr)
      < overallScore
          (ComparisonReport.generateProjectedAudit
             (GeoAuditor.auditSite env cr))).
Proof.
  rewrite auditSite_overall, projected_auditSite_overall.
  rewrite <- Zle_Qle, <- Zlt_Qlt. split.
  - apply Math_round_mono.
    pose proof (projected_sum_score (GeoAuditor.audit_items env cr)) as H.
    apply Qmult_le_compat_r; [exact H | discriminate].
  - intro Hmissing.
    pose proof (missing_robots_gain env cr Hmissing) as H.
    apply Z.lt_le_trans
      with (Math_round
              (Spec.weighted_sum score (GeoAuditor.audit_items env cr) / 39)
            + 1)%Z; [lia|].
    apply Math_round_step. unfold Qdiv.
    set (s := Spec.weighted_sum score (GeoAuditor.audit_items env cr)) in *.
    set (s' := Spec.weighted_sum score
                 (map ComparisonReport.project_item
                    (GeoAuditor.audit_items env cr))) in *.
    change (/ 39) with (1 # 39). lra.
Qed.

Lemma X3_projection_raises_overall_witness :
  truthy (robotsTxt (existingGeoFiles Samples.empty_crawl)) = false
  /\ overallScore
       (GeoAuditor.auditSite (mkEnv 0 (fun _ => None)) Samples.empty_crawl)
     < overallScore
         (ComparisonReport.generateProjectedAudit
            (GeoAuditor.auditSite (mkEnv 0 (fun _ => None))
               Samples.empty_crawl)).
Proof.
  split; [reflexivity|].
  exact (proj2 (X3_projection_raises_overall (mkEnv 0 (fun _ => None))
                  Samples.empty_crawl) eq_refl).
Defined.

(** ** What the projection keeps and what it reaches *)

Lemma project_item_passed (item : AuditItem) :
  counts_as_passed (status item) = true ->
  counts_as_passed (status (ComparisonReport.project_item item)) = true.
Proof.
  unfold ComparisonReport.project_item.
  destruct (ComparisonReport.lookup _ _) as [imp|]; [|auto].
  destruct (Qlt_bool _ _); [|auto].
  intros _. cbn [status]. now destruct (Qle_bool 70 _).
Qed.

Lemma projected_tier_total (c : Category) (its : list AuditItem) :
  tier_total c (map ComparisonReport.project_item its) = tier_total c its.
Proof.
  unfold tier_total. induction its as [|it rest IH]; [reflexivity|].
  cbn [map filter]. rewrite project_item_category.
  destruct (same_tier (category it) c); cbn [List.length]; now rewrite IH.
Qed.

Lemma projected_tier_passed (c : Category) (its : list AuditItem) :
  (tier_passed c its
   <= tier_passed c (map ComparisonReport.project_item its))%nat.
Proof.
  unfold tier_passed. induction its as [|it rest IH]; [reflexivity|].
  cbn [map filter]. rewrite project_item_category.
  destruct (same_tier (category it) c); cbn [andb]; [|exact IH].
  destruct (counts_as_passed (status it)) eqn:Hp.
  - rewrite (project_item_passed it Hp). cbn [List.length].
    apply le_n_S, IH.
  - destruct (counts_as_passed
                (status (ComparisonReport.project_item it)));
      cbn [List.length]; [apply le_S, IH | exact IH].
Qed.

(** X4. The projection keeps the findings in place: the same names, tiers
    and maxima in the same order.  Its summary has the per-tier totals of
    the input findings, and per tier at least as many passed findings. *)
Theorem X4_projection_keeps_findings (before : AuditResult) :
  map (fun it => (name it, category it, maxScore it))
      (items (ComparisonReport.generateProjectedAudit before))
  = map (fun it => (name it, category it, maxScore it)) (items before)
  /\ forall c,
       total (summary_get
                (summary (ComparisonReport.generateProjectedAudit before)) c)
       = tier_total c (items before)
       /\ (tier_passed c (items before)
           <= passed
                (summary_get
                   (summary (ComparisonReport.generateProjectedAudit before))
                   c))%nat.
Proof.
  unfold ComparisonReport.generateProjectedAudit. cbv zeta.
  cbn [items summary]. split.
  - rewrite map_map. apply map_ext. intro it.
    now rewrite project_item_name, project_item_category,
      project_item_maxScore.
  - intro c. rewrite score_loop_tally. cbn [total passed].
    split; [apply projected_tier_total | apply projected_tier_passed].
Qed.

Lemma replaced_status_pass (item : AuditItem) :
  improvable item = true ->
  status (ComparisonReport.project_item item) = pass.
Proof.
  unfold improvable, ComparisonReport.project_item.
  destruct (ComparisonReport.lookup _ _) as [imp|] eqn:Hl; [|discriminate].
  intros ->. cbn [status].
  apply table_targets_in_range in Hl. destruct Hl as [H70 _].
  apply Qle_bool_iff in H70. now rewrite H70.
Qed.

Lemma improvable_eligible (item : AuditItem) :
  improvable item = true <-> Spec.eligible item.
Proof.
  unfold improvable, Spec.eligible. split.
  - destruct (ComparisonReport.lookup _ _) as [imp|] eqn:Hl; [|discriminate].
    intro H. exists imp. split; [now apply in_table_lookup|].
    now apply Qlt_bool_iff.
  - intros (imp & Hin & Hs). apply in_table_lookup in Hin. rewrite Hin.
    now apply Qlt_bool_iff.
Qed.

Lemma project_item_reaches_target (item : AuditItem)
    (imp : ComparisonReport.Improvement) :
  Spec.in_table (name item) imp ->
  ComparisonReport.imp_score imp
  <= score (ComparisonReport.project_item item).
Proof.
  intro Hin. apply in_table_lookup in Hin.
  unfold ComparisonReport.project_item. rewrite Hin.
  destruct (Qlt_bool _ _) eqn:Hlt; [apply Qle_refl|].
  now apply Qlt_bool_false_iff.
Qed.

(** X5. After the projection every finding named in the table scores at
    least its target, and a finding the projection replaces always gets
    status pass: with the targets of the table, all of them at least 70, the
    partial branch is never taken. *)
Theorem X5_projection_reaches_targets (before : AuditResult) :
  Forall
    (fun item' =>
       forall imp,
         Spec.in_table (name item') imp ->
         ComparisonReport.imp_score imp <= score item')
    (items (ComparisonReport.generateProjectedAudit before))
  /\ Forall2
       (fun item item' => Spec.eligible item -> status item' = pass)
       (items before)
       (items (ComparisonReport.generateProjectedAudit before)).
Proof.
  unfold ComparisonReport.generateProjectedAudit. cbv zeta. cbn [items].
  split.
  - rewrite Forall_map. apply Forall_forall. intros item _ imp Hin.
    rewrite project_item_name in Hin.
    now apply project_item_reaches_target.
  - apply Forall2_map_r. intros item He.
    now apply replaced_status_pass, improvable_eligible.
Qed.

Lemma X5_projection_reaches_targets_witness :
  Spec.in_table "robots.txt"
    (ComparisonReport.mkImprovement 100 "AI crawler directives for 13 bots")
  /\ Forall
       (fun item' =>
          forall imp,
            Spec.in_table (name item') imp ->
            ComparisonReport.imp_score imp <= score item')
       (items (ComparisonReport.generateProjectedAudit Samples.two_findings)).
Proof.
  split; [now left|].
  exact (proj1 (X5_projection_reaches_targets Samples.two_findings)).
Defined.

(** ** robots.txt: coverage and blocking *)

Lemma auditRobotsTxt_by_count (c : ascii) (rest : string) :
  let k := key_crawlers_mentioned (String c rest) in
  score (GeoAuditor.auditRobotsTxt (Some (String c rest)))
  = (if (k =? 0)%nat then 30
     else inject_Z (Math_round (Math_min 100 (30 + of_nat k / of_nat 5 * 70))))
  /\ status (GeoAuditor.auditRobotsTxt (Some (String c rest)))
     = (if (k =? 0)%nat then partial
        else if (3 <=? k)%nat then pass else partial).
Proof.
  cbv zeta. unfold key_crawlers_mentioned, GeoAuditor.auditRobotsTxt.
  cbv zeta.
  match goal with
  | |- context [filter ?p ?l] => set (mentioned := filter p l)
  end.
  destruct (List.length mentioned =? 0)%nat; split; reflexivity.
Qed.

(** X6. For a robots.txt that is present, the coverage score is 30 plus 14
    for each of the five key crawlers whose name (GPTBot, ClaudeBot,
    Google-Extended, PerplexityBot, Applebot-Extended) occurs anywhere in
    the text, and the status is pass exactly when at least three occur. *)
Theorem X6_robots_coverage_score (c : ascii) (rest : string) :
  let content := String c rest in
  let k := key_crawlers_mentioned content in
  score (GeoAuditor.auditRobotsTxt (Some content))
  = inject_Z (30 + 14 * Z.of_nat k)
  /\ (k <= 5)%nat
  /\ (status (GeoAuditor.auditRobotsTxt (Some content)) = pass <-> (3 <= k)%nat)
  /\ (status (GeoAuditor.auditRobotsTxt (Some content)) = partial
      <-> (k < 3)%nat).
Proof.
  cbv zeta. destruct (auditRobotsTxt_by_count c rest) as [Hs Hst].
  cbv zeta in Hs, Hst. rewrite Hs, Hst.
  assert (Hk : (key_crawlers_mentioned (String c rest) <= 5)%nat)
    by (unfold key_crawlers_mentioned; apply filter_length_le).
  destruct (key_crawlers_mentioned (String c rest))
    as [|[|[|[|[|[|k]]]]]]; [..|lia];
    (split; [vm_compute; reflexivity|]);
    (split; [lia|]);
    cbn [Nat.eqb Nat.leb];
    split; split; intro H; first [reflexivity | discriminate | lia].
Qed.

Lemma blocked_crawlers_known (content bot : string) :
  In bot (GeoAuditor.blocked_crawlers content) ->
  In bot GeoAuditor.aiCrawlers.
Proof.
  intro H. apply blocked_crawlers_marked in H.
  destruct H as (before & line & after & agent & _ & _ & _ & Hb). apply Hb.
Qed.

Lemma blocked_crawlers_count (content : string) :
  (List.length (GeoAuditor.blocked_crawlers content) <= 13)%nat.
Proof.
  change 13%nat with (List.length GeoAuditor.aiCrawlers).
  apply NoDup_incl_length; [apply unique_NoDup|].
  intros bot. apply blocked_crawlers_known.
Qed.

Lemma auditAiBotBlocking_by_count (content : string) :
  let n := List.length (GeoAuditor.blocked_crawlers content) in
  score (GeoAuditor.auditAiBotBlocking (Some content))
  = (if (n =? 0)%nat then 100
     else inject_Z
            (Math_round (Math_max 0 ((1 - of_nat n / of_nat 13) * 100))))
  /\ status (GeoAuditor.auditAiBotBlocking (Some content))
     = (if (n =? 0)%nat then pass
        else if Qlt_bool (1 # 2) (of_nat n / of_nat 13) then fail
        else partial).
Proof.
  cbv zeta. destruct content as [|c s]; [split; reflexivity|].
  unfold GeoAuditor.auditAiBotBlocking. cbv zeta.
  destruct (List.length (GeoAuditor.blocked_crawlers (String c s)) =? 0)%nat;
    split; reflexivity.
Qed.

(** X7. The scan never marks more than the 13 reference crawlers, so the
    score is round(100 x (13 - n) / 13) for n blocked crawlers and the clamp
    at 0 never comes into play; the score is 0 exactly when all 13 are
    blocked, and the status is fail exactly when 7 or more are. *)
Theorem X7_blocked_count_bounded (content : string) :
  let n := List.length (GeoAuditor.blocked_crawlers content) in
  (n <= 13)%nat
  /\ score (GeoAuditor.auditAiBotBlocking (Some content))
     = inject_Z (Math_round (of_nat (13 - n) * 100 / 13))
  /\ (score (GeoAuditor.auditAiBotBlocking (Some content)) = 0
      <-> n = 13%nat)
  /\ (status (GeoAuditor.auditAiBotBlocking (Some content)) = fail
      <-> (7 <= n)%nat).
Proof.
  cbv zeta. destruct (auditAiBotBlocking_by_count content) as [Hs Hst].
  cbv zeta in Hs, Hst. rewrite Hs, Hst.
  pose proof (blocked_crawlers_count content) as Hn.
  split; [exact Hn|].
  destruct (List.length (GeoAuditor.blocked_crawlers content))
    as [|[|[|[|[|[|[|[|[|[|[|[|[|[|n]]]]]]]]]]]]]]; [..|lia];
    (split; [vm_compute; reflexivity|]);
    split; split; intro H;
    first [lia | reflexivity | vm_compute in H; discriminate].
Qed.





(** ** Empty files *)

Lemma truthy_nonempty (file : option string) :
  truthy (nonempty file) = truthy file.
Proof. now destruct file as [[|c s]|]. Qed.

Lemma auditRobotsTxt_nonempty file :
  GeoAuditor.auditRobotsTxt (nonempty file) = GeoAuditor.auditRobotsTxt file.
Proof. now destruct file as [[|c s]|]. Qed.

Lemma auditSitemap_nonempty file n :
  GeoAuditor.auditSitemap (nonempty file) n = GeoAuditor.auditSitemap file n.
Proof. now destruct file as [[|c s]|]. Qed.

Lemma auditLlmsTxt_nonempty file :
  GeoAuditor.auditLlmsTxt (nonempty file) = GeoAuditor.auditLlmsTxt file.
Proof. now destruct file as [[|c s]|]. Qed.

Lemma auditAiBotBlocking_nonempty file :
  GeoAuditor.auditAiBotBlocking (nonempty file)
  = GeoAuditor.auditAiBotBlocking file.
Proof. now destruct file as [[|c s]|]. Qed.

Lemma auditAiPolicy_nonempty t j :
  GeoAuditor.auditAiPolicy (nonempty t) (nonempty j)
  = GeoAuditor.auditAiPolicy t j.
Proof.
  unfold GeoAuditor.auditAiPolicy. cbv zeta. now rewrite !truthy_nonempty.
Qed.

Lemma presence_item_nonempty file n c f f' m g a :
  (truthy file = true -> f' = f) ->
  GeoAuditor.presence_item (nonempty file) n c f' m g a
  = GeoAuditor.presence_item file n c f m g a.
Proof.
  intro Hf. unfold GeoAuditor.presence_item. rewrite truthy_nonempty.
  destruct (truthy file); [now rewrite Hf | reflexivity].
Qed.

Lemma auditSearchIndexing_nonempty b d p files :
  GeoAuditor.auditSearchIndexing (mkCrawl b d p (nonempty_files files))
  = GeoAuditor.auditSearchIndexing (mkCrawl b d p files).
Proof.
  unfold GeoAuditor.auditSearchIndexing.
  cbn [pages existingGeoFiles nonempty_files bingSiteAuth robotsTxt].
  rewrite truthy_nonempty.
  assert (Hr : match nonempty (robotsTxt files) with
               | Some t => t
               | None => EmptyString
               end
               = match robotsTxt files with
                 | Some t => t
                 | None => EmptyString
                 end)
    by (now destruct (robotsTxt files) as [[|c s]|]).
  rewrite Hr. reflexivity.
Qed.

Lemma audit_items_nonempty env (cr : SiteCrawlResult) :
  GeoAuditor.audit_items env (with_nonempty_files cr)
  = GeoAuditor.audit_items env cr.
Proof.
  destruct cr as [b d p files]. unfold with_nonempty_files.
  cbn [baseUrl domain pages existingGeoFiles].
  unfold GeoAuditor.audit_items. cbv zeta.
  cbn [pages existingGeoFiles nonempty_files robotsTxt sitemapXml llmsTxt
         llmsFullTxt aiTxt aiJson securityTxt tdmrepJson humansTxt
         manifestJson].
  rewrite auditRobotsTxt_nonempty, auditSitemap_nonempty,
    auditLlmsTxt_nonempty, auditAiBotBlocking_nonempty,
    auditAiPolicy_nonempty, auditSearchIndexing_nonempty.
  rewrite (presence_item_nonempty (llmsFullTxt files) "llms-full.txt" high
             ("Found llms-full.txt ("
                ++ show (match llmsFullTxt files with
                         | Some t => String.length t
                         | None => 0%nat
                         end)
                ++ " chars)")).
  2: { destruct (llmsFullTxt files) as [[|c s]|]; try discriminate.
       reflexivity. }
  rewrite !(presence_item_nonempty _ _ _ _ _ _ _ _ (fun _ => eq_refl)).
  reflexivity.
Qed.

(** X10. A policy file that was fetched but is empty counts as missing:
    the audit of a crawl is the audit of the same crawl with its empty files
    removed. *)
Theorem X10_empty_file_is_missing (env : Env) (cr : SiteCrawlResult) :
  GeoAuditor.auditSite env (with_nonempty_files cr)
  = GeoAuditor.auditSite env cr.
Proof.
  unfold GeoAuditor.auditSite. cbv zeta.
  now rewrite audit_items_nonempty.
Qed.

(** ** FAQ content and search indexing *)

Lemma Math_min_inject_Z (a b : Z) :
  Math_min (inject_Z a) (inject_Z b) = inject_Z (Z.min a b).
Proof.
  unfold Math_min. destruct (Qle_bool (inject_Z a) (inject_Z b)) eqn:E.
  - apply Qle_bool_iff in E. rewrite <- Zle_Qle in E.
    now rewrite Z.min_l.
  - apply Qle_bool_false_iff in E. rewrite <- Zlt_Qlt in E.
    now rewrite Z.min_r by lia.
Qed.

Lemma Math_min_keeps (x y : Q) : y <= x -> Math_min x y == y.
Proof.
  intro H. unfold Math_min. destruct (Qle_bool x y) eqn:E; [|reflexivity].
  apply Qle_bool_iff in E. now apply Qle_antisym.
Qed.

Lemma totalFAQs_sum (pages : list PageData) (n : nat) :
  fold_left
    (fun n page =>
       let faqCount := List.length (faqItems (content page)) in
       if (0 <? faqCount)%nat then (n + faqCount)%nat else n)
    pages n
  = (n + list_sum
           (map (fun page => List.length (faqItems (content page))) pages))%nat.
Proof.
  revert n. induction pages as [|page rest IH]; intro n; simpl; [lia|].
  rewrite IH.
  destruct (List.length (faqItems (content page))) as [|k]; simpl; lia.
Qed.

Lemma auditFAQContent_by_count (cr : SiteCrawlResult) :
  let t := faq_items cr in
  let base := Math_min 60 (of_nat t * 15) in
  let raw := if has_FAQPage_schema cr then base + 40 else base in
  score (GeoAuditor.auditFAQContent cr)
  = (if (t =? 0)%nat then 0 else Math_min 100 raw)
  /\ status (GeoAuditor.auditFAQContent cr)
     = (if (t =? 0)%nat then fail
        else if Qle_bool 60 (Math_min 100 raw) then pass else partial).
Proof.
  cbv zeta. unfold GeoAuditor.auditFAQContent. cbv zeta.
  rewrite totalFAQs_sum. cbn [Nat.add].
  change (list_sum _) with (faq_items cr).
  change (existsb _ (pages cr)) with (has_FAQPage_schema cr).
  destruct (faq_items cr =? 0)%nat; split; reflexivity.
Qed.

(** X11. Without FAQ items the FAQ finding is 0 and fail, whether or not a
    page carries FAQPage markup.  With t > 0 items the score is
    min(60, 15 t), plus 40 with FAQPage markup; the status is never fail,
    and it is pass from 4 items on, or from 2 items on with the markup. *)
Theorem X11_faq_score (cr : SiteCrawlResult) :
  let t := faq_items cr in
  (t = 0%nat ->
   score (GeoAuditor.auditFAQContent cr) = 0
   /\ status (GeoAuditor.auditFAQContent cr) = fail)
  /\ ((0 < t)%nat ->
      score (GeoAuditor.auditFAQContent cr)
      == inject_Z (Z.min 60 (15 * Z.of_nat t)
                   + (if has_FAQPage_schema cr then 40 else 0))
      /\ status (GeoAuditor.auditFAQContent cr) <> fail
      /\ (status (GeoAuditor.auditFAQContent cr) = pass
          <-> (if has_FAQPage_schema cr then 2 <= t else 4 <= t)%nat)).
Proof.
  cbv zeta. destruct (auditFAQContent_by_count cr) as [Hs Hst].
  cbv zeta in Hs, Hst. rewrite Hs, Hst. clear Hs Hst.
  split.
  - intros ->. split; reflexivity.
  - intro Hpos.
    destruct (faq_items cr =? 0)%nat eqn:Hz;
      [apply Nat.eqb_eq in Hz; lia|].
    set (t := faq_items cr) in *.
    assert (Hbase : Math_min 60 (of_nat t * 15)
                    = inject_Z (Z.min 60 (Z.of_nat t * 15)))
      by (apply (Math_min_inject_Z 60 (Z.of_nat t * 15))).
    rewrite Hbase.
    set (m := Z.min 60 (Z.of_nat t * 15)).
    assert (Hm : (15 <= m <= 60)%Z) by (subst m; lia).
    assert (Hm' : m = Z.min 60 (15 * Z.of_nat t)) by (subst m; f_equal; lia).
    rewrite <- Hm'.
    assert (Hq : 15 <= inject_Z m /\ inject_Z m <= 60)
      by (split; [change 15 with (inject_Z 15) | change 60 with (inject_Z 60)];
          rewrite <- Zle_Qle; lia).
    assert (Hraw : Math_min 100
                     (if has_FAQPage_schema cr
                      then inject_Z m + 40 else inject_Z m)
                   == inject_Z (m + (if has_FAQPage_schema cr then 40 else 0))).
    { rewrite Math_min_keeps.
      - destruct (has_FAQPage_schema cr).
        + now rewrite inject_Z_plus.
        + now rewrite Z.add_0_r.
      - destruct (has_FAQPage_schema cr); lra. }
    split; [exact Hraw|].
    rewrite Hraw.
    destruct (Qle_bool 60 _) eqn:H60.
    + split; [discriminate|]. split; [intros _ | reflexivity].
      apply Qle_bool_iff in H60. change 60 with (inject_Z 60) in H60.
      rewrite <- Zle_Qle in H60.
      destruct (has_FAQPage_schema cr); subst m; lia.
    + split; [discriminate|]. split; [discriminate|].
      intro Ht. exfalso.
      apply Qle_bool_false_iff in H60. change 60 with (inject_Z 60) in H60.
      rewrite <- Zlt_Qlt in H60.
      destruct (has_FAQPage_schema cr); subst m; lia.
Qed.

Lemma X11_faq_score_witness :
  faq_items Samples.empty_crawl = 0%nat
  /\ score (GeoAuditor.auditFAQContent Samples.empty_crawl) = 0
  /\ status (GeoAuditor.auditFAQContent Samples.empty_crawl) = fail.
Proof.
  split; [reflexivity|].
  exact (proj1 (X11_faq_score Samples.empty_crawl) eq_refl).
Defined.




(** ** The comparison report *)





Lemma score_below_projection (b : AuditItem) :
  Qlt_bool (score b) (score (ComparisonReport.project_item b)) = improvable b.
Proof.
  unfold improvable, ComparisonReport.project_item.
  destruct (ComparisonReport.lookup _ _) as [imp|];
    [|apply Qlt_bool_irrefl].
  destruct (Qlt_bool (score b) (ComparisonReport.imp_score imp)) eqn:E;
    [exact E | apply Qlt_bool_irrefl].
Qed.

Lemma split_from_projection (bs : list AuditItem)
    (acc : ComparisonHtml.Buckets) :
  ComparisonHtml.split_from bs (map ComparisonReport.project_item bs) acc
  = Some
      (ComparisonHtml.mkBuckets
         (ComparisonHtml.weFixItems acc ++ projected_pairs improvable bs)
         (ComparisonHtml.clientFixItems acc
            ++ projected_pairs
                 (fun b => negb (improvable b) && Qlt_bool (score b) 100) bs)
         (ComparisonHtml.alreadyGoodItems acc
            ++ projected_pairs
                 (fun b => negb (improvable b)
                           && negb (Qlt_bool (score b) 100)) bs)).
Proof.
  unfold projected_pairs. revert acc.
  induction bs as [|b bs IH]; intro acc.
  - simpl. rewrite !app_nil_r. now destruct acc.
  - cbn [map ComparisonHtml.split_from filter]. rewrite IH.
    unfold ComparisonHtml.place. rewrite score_below_projection.
    destruct (improvable b); cbn [negb andb];
      [|destruct (Qlt_bool (score b) 100); cbn [negb]];
      cbn [ComparisonHtml.weFixItems ComparisonHtml.clientFixItems
             ComparisonHtml.alreadyGoodItems map];
      now rewrite <- app_assoc.
Qed.

Lemma improvable_card_note (b : AuditItem) :
  improvable b = true ->
  ComparisonHtml.card_note b true
  = details (ComparisonReport.project_item b).
Proof.
  unfold improvable, ComparisonHtml.card_note, ComparisonReport.project_item.
  destruct (ComparisonReport.lookup _ _) as [imp|]; [|discriminate].
  now intros ->.
Qed.

(** X14. When the second audit is the projection of the first, the page's
    "we fix" list holds exactly the findings the table improves, "needs your
    attention" the other findings below 100, and "already good" the rest,
    each in the order of the audit; and every "we fix" card shows the note
    of the table, which is the detail text of the projected finding. *)
Theorem X14_comparison_split_of_projection (before : AuditResult) :
  ComparisonHtml.split_items before
    (ComparisonReport.generateProjectedAudit before)
  = Some
      (ComparisonHtml.mkBuckets
         (projected_pairs improvable (items before))
         (projected_pairs
            (fun b => negb (improvable b) && Qlt_bool (score b) 100)
            (items before))
         (projected_pairs
            (fun b => negb (improvable b) && negb (Qlt_bool (score b) 100))
            (items before)))
  /\ Forall (fun pair => ComparisonHtml.card_note (fst pair) true
                         = details (snd pair))
       (projected_pairs improvable (items before)).
Proof.
  split.
  - unfold ComparisonHtml.split_items,
      ComparisonReport.generateProjectedAudit.
    cbv zeta. cbn [items]. now rewrite split_from_projection.
  - unfold projected_pairs. rewrite Forall_map. apply Forall_forall.
    intros b Hb. apply filter_In in Hb. cbn [fst snd].
    now apply improvable_card_note.
Qed.

(** X15. The colour of the grade shown for an overall score: green from
    80 (grades A+ and A), blue from 70, yellow from 60, orange from 50, red
    below. *)
Theorem X15_grade_colour_by_score (s : Q) :
  ComparisonHtml.getGradeColor (ComparisonReport.scoreToGrade s)
  = (if Qle_bool 80 s then "#22c55e"
     else if Qle_bool 70 s then "#3b82f6"
     else if Qle_bool 60 s then "#eab308"
     else if Qle_bool 50 s then "#f97316"
     else "#ef4444").
Proof.
  unfold ComparisonReport.scoreToGrade.
  destruct (Qle_bool 90 s) eqn:H90.
  - apply Qle_bool_iff in H90.
    assert (H80 : Qle_bool 80 s = true)
      by (apply Qle_bool_iff; apply Qle_trans with 90;
          [discriminate | exact H90]).
    now rewrite H80.
  - destruct (Qle_bool 80 s); [reflexivity|].
    destruct (Qle_bool 70 s); [reflexivity|].
    destruct (Qle_bool 60 s); [reflexivity|].
    destruct (Qle_bool 50 s); reflexivity.
Qed.

(** ** Page slugs *)

Lemma dash_slashes_no_slash (s : string) :
  any_char StructuredData.is_slash (StructuredData.dash_slashes s) = false.
Proof.
  induction s as [|c r IH]; [reflexivity|].
  cbn [StructuredData.dash_slashes any_char]. rewrite IH, orb_false_r.
  destruct (StructuredData.is_slash c) eqn:E; [reflexivity | exact E].
Qed.

Lemma drop_extension_no_slash (s : string) :
  any_char StructuredData.is_slash s = false ->
  any_char StructuredData.is_slash (StructuredData.drop_extension s) = false.
Proof.
  induction s as [|c r IH]; [reflexivity|].
  cbn [StructuredData.drop_extension any_char].
  intro H. apply orb_false_iff in H. destruct H as [Hc Hr].
  destruct (_ && _ && _); [reflexivity|].
  cbn [any_char]. now rewrite Hc, IH.
Qed.

Lemma drop_leading_all_slashes (s : string) :
  all_chars StructuredData.is_slash s = true ->
  StructuredData.drop_leading_slashes s = EmptyString.
Proof.
  induction s as [|c r IH]; [reflexivity|].
  cbn [all_chars StructuredData.drop_leading_slashes].
  intro H. apply andb_true_iff in H. destruct H as [-> Hr]. now apply IH.
Qed.

Lemma drop_extension_plain (s : string) :
  any_char StructuredData.is_dot s = false ->
  StructuredData.drop_extension s = s.
Proof.
  induction s as [|c r IH]; [reflexivity|].
  cbn [StructuredData.drop_extension any_char].
  intro H. apply orb_false_iff in H. destruct H as [-> Hr].
  cbn [andb]. now rewrite IH.
Qed.

Lemma drop_trailing_plain (s : string) :
  any_char StructuredData.is_slash s = false ->
  StructuredData.drop_trailing_slashes s = s.
Proof.
  induction s as [|c r IH]; [reflexivity|].
  cbn [StructuredData.drop_trailing_slashes any_char].
  intro H. apply orb_false_iff in H. destruct H as [Hc Hr].
  rewrite (IH Hr), Hc. now destruct r.
Qed.

Lemma dash_slashes_plain (s : string) :
  any_char StructuredData.is_slash s = false ->
  StructuredData.dash_slashes s = s.
Proof.
  induction s as [|c r IH]; [reflexivity|].
  cbn [StructuredData.dash_slashes any_char].
  intro H. apply orb_false_iff in H. destruct H as [-> Hr].
  now rewrite IH.
Qed.

(** X16. A page slug never contains a slash, so it names a file directly
    under the output directory; a path made of slashes only gives "index";
    and a path whose only segment is a dot followed by a name without dots
    (a dot-file) gives the empty slug. *)
Theorem X16_page_slug :
  (forall path,
      any_char StructuredData.is_slash (StructuredData.pathToSlug path) = false)
  /\ (forall path,
         all_chars StructuredData.is_slash path = true ->
         StructuredData.pathToSlug path = "index")
  /\ (forall c name,
         any_char StructuredData.is_slash (String c name) = false ->
         any_char StructuredData.is_dot (String c name) = false ->
         StructuredData.pathToSlug ("/." ++ String c name) = EmptyString).
Proof.
  split; [|split].
  - intro path. unfold StructuredData.pathToSlug. cbv zeta.
    apply drop_extension_no_slash.
    destruct (String.eqb _ EmptyString); [reflexivity|].
    apply dash_slashes_no_slash.
  - intros path Hall. unfold StructuredData.pathToSlug. cbv zeta.
    now rewrite (drop_leading_all_slashes path Hall).
  - intros c name Hslash Hdot. unfold StructuredData.pathToSlug. cbv zeta.
    change (StructuredData.drop_leading_slashes ("/." ++ String c name))
      with (String "." (String c name)).
    assert (Hs : any_char StructuredData.is_slash (String "." (String c name))
                 = false) by exact Hslash.
    rewrite (drop_trailing_plain _ Hs), (dash_slashes_plain _ Hs).
    cbn [String.eqb Ascii.eqb Bool.eqb]. 
    cbn [StructuredData.drop_extension].
    change (StructuredData.is_dot ".") with true.
    change (String.eqb (String c name) EmptyString) with false.
    now rewrite Hdot.
Qed.

Lemma X16_page_slug_witness :
  any_char StructuredData.is_slash "env" = false
  /\ any_char StructuredData.is_dot "env" = false
  /\ StructuredData.pathToSlug "/.env" = EmptyString.
Proof.
  split; [reflexivity|]. split; [reflexivity|].
  exact (proj2 (proj2 X16_page_slug) "e"%char "nv" eq_refl eq_refl).
Defined.

(** Slugs of the usual page paths. *)
Example page_slugs :
  StructuredData.pathToSlug "/" = "index"
  /\ StructuredData.pathToSlug "/blog/first-post.html" = "blog-first-post"
  /\ StructuredData.pathToSlug "/docs/v1.2/intro/" = "docs-v1".
Proof. repeat split. Qed.

Lemma string_app_assoc (s t u : string) : (s ++ t) ++ u = s ++ t ++ u.
Proof.
  induction s as [|c r IH]; [reflexivity|]. cbn [append]. now rewrite IH.
Qed.

Lemma dash_slashes_app (s t : string) :
  StructuredData.dash_slashes (s ++ t)
  = StructuredData.dash_slashes s ++ StructuredData.dash_slashes t.
Proof.
  induction s as [|c r IH]; [reflexivity|].
  cbn [append StructuredData.dash_slashes]. now rewrite IH.
Qed.

Lemma drop_trailing_ends_plain (s : string) (c : ascii) (r : string) :
  any_char StructuredData.is_slash (String c r) = false ->
  StructuredData.drop_trailing_slashes (s ++ String c r) = s ++ String c r.
Proof.
  intro Hplain. induction s as [|x s IH].
  - now apply drop_trailing_plain.
  - cbn [append StructuredData.drop_trailing_slashes]. rewrite IH.
    now destruct s.
Qed.

(** X17. Slugs collide: a page two segments deep and a page whose single
    segment joins the same two names with a dash get the same slug, the key
    under which the per-page map stores the structured data of a page. *)
Theorem X17_page_slugs_collide (c d : ascii) (a b : string) :
  any_char StructuredData.is_slash (String c a) = false ->
  any_char StructuredData.is_slash (String d b) = false ->
  "/" ++ String c a ++ "/" ++ String d b
  <> "/" ++ String c a ++ "-" ++ String d b
  /\ StructuredData.pathToSlug ("/" ++ String c a ++ "/" ++ String d b)
     = StructuredData.pathToSlug ("/" ++ String c a ++ "-" ++ String d b).
Proof.
  intros Ha Hb. split.
  - intro H. cbn [append] in H. injection H as H.
    revert H. clear Ha. induction a as [|x a IH]; cbn [append].
    + discriminate.
    + intro H. injection H as H. now apply IH.
  - unfold StructuredData.pathToSlug. cbv zeta.
    assert (Hc : StructuredData.is_slash c = false).
    { cbn [any_char] in Ha. now apply orb_false_iff in Ha. }
    assert (Hlead : forall t,
               StructuredData.drop_leading_slashes ("/" ++ String c a ++ t)
               = String c a ++ t).
    { intro t. cbn [append StructuredData.drop_leading_slashes].
      change (StructuredData.is_slash "/") with true. cbv iota.
      now rewrite Hc. }
    rewrite !Hlead.
    assert (Hdash : any_char StructuredData.is_slash ("-" ++ String d b)
                    = false) by exact Hb.
    rewrite <- !string_app_assoc.
    rewrite !(drop_trailing_ends_plain _ d b Hb).
    rewrite !dash_slashes_app.
    rewrite (dash_slashes_plain _ Ha), (dash_slashes_plain _ Hb).
    reflexivity.
Qed.

Lemma X17_page_slugs_collide_witness :
  any_char StructuredData.is_slash "a" = false
  /\ any_char StructuredData.is_slash "b" = false
  /\ StructuredData.pathToSlug "/a/b" = StructuredData.pathToSlug "/a-b".
Proof.
  split; [reflexivity|]. split; [reflexivity|].
  exact (proj2 (X17_page_slugs_collide "a" "b" EmptyString EmptyString
                  eq_refl eq_refl)).
Defined.

(** ** Status and score go together *)

Lemma round_at_least (lo : Z) (x : Q) :
  inject_Z lo <= x -> inject_Z lo <= inject_Z (Math_round x).
Proof.
  intro H. rewrite <- Zle_Qle. apply Math_round_mono in H.
  now rewrite Math_round_inject_Z in H.
Qed.

Lemma round_at_most (hi : Z) (x : Q) :
  x <= inject_Z hi -> inject_Z (Math_round x) <= inject_Z hi.
Proof.
  intro H. rewrite <- Zle_Qle. apply Math_round_mono in H.
  now rewrite Math_round_inject_Z in H.
Qed.

Lemma fits_intro (it : AuditItem) :
  (status it = pass -> 60 <= score it) ->
  (status it = fail -> score it <= 50) ->
  (status it = not_applicable -> score it = 0) ->
  status_fits it.
Proof. unfold status_fits. auto. Qed.

(** A finding whose status comes from its coverage. *)
Lemma coverage_item_fits n c d r (coverage : Q) :
  status_fits
    (mkItem n c (inject_Z (Math_round (coverage * 100))) 100
       (GeoAuditor.coverage_status coverage) d r).
Proof.
  apply fits_intro; cbn [score status]; unfold GeoAuditor.coverage_status;
    destruct (Qle_bool (8 # 10) coverage) eqn:H8; try discriminate.
  - intros _. apply Qle_bool_iff in H8.
    apply (round_at_least 60). change (60 <= coverage * 100). lra.
  - destruct (Qle_bool (1 # 2) coverage); discriminate.
  - destruct (Qle_bool (1 # 2) coverage) eqn:H5; [discriminate|].
    intros _. apply Qle_bool_false_iff in H5.
    apply (round_at_most 50). change (coverage * 100 <= 50). lra.
  - destruct (Qle_bool (1 # 2) coverage); discriminate.
Qed.

(** A finding whose status comes from its score by the 60 / above 0 rule. *)
Lemma scored_item_fits n c d r (s : Q) :
  status_fits
    (mkItem n c s 100
       (if Qle_bool 60 s then pass
        else if Qlt_bool 0 s then partial else fail) d r).
Proof.
  apply fits_intro; cbn [score status];
    destruct (Qle_bool 60 s) eqn:H60; try discriminate.
  - intros _. now apply Qle_bool_iff.
  - destruct (Qlt_bool 0 s); discriminate.
  - destruct (Qlt_bool 0 s) eqn:H0; [discriminate|].
    intros _. apply Qlt_bool_false_iff in H0. lra.
  - destruct (Qlt_bool 0 s); discriminate.
Qed.

Ltac const_fits :=
  apply fits_intro; cbn [score status]; intro; first [discriminate | reflexivity].

Lemma presence_item_fits file n c f m g a :
  status_fits (GeoAuditor.presence_item file n c f m g a).
Proof.
  unfold GeoAuditor.presence_item. destruct (truthy file); const_fits.
Qed.

Lemma auditRobotsTxt_fits content :
  status_fits (GeoAuditor.auditRobotsTxt content).
Proof.
  destruct content as [[|c s]|]; try const_fits.
  destruct (auditRobotsTxt_by_count c s) as [Hs Hst]. cbv zeta in Hs, Hst.
  assert (Hk : (key_crawlers_mentioned (String c s) <= 5)%nat)
    by (unfold key_crawlers_mentioned; apply filter_length_le).
  apply fits_intro; rewrite Hs, Hst;
    destruct (key_crawlers_mentioned (String c s))
      as [|[|[|[|[|[|k]]]]]]; try lia;
    cbn [Nat.eqb Nat.leb]; intro H;
    first [discriminate | vm_compute; discriminate].
Qed.

Lemma auditSitemap_fits content n :
  status_fits (GeoAuditor.auditSitemap content n).
Proof.
  unfold GeoAuditor.auditSitemap.
  destruct content as [[|c s]|]; try const_fits. cbv zeta.
  destruct (0 <? _)%nat, (includes _ "<lastmod>"); const_fits.
Qed.

Lemma auditLlmsTxt_fits content :
  status_fits (GeoAuditor.auditLlmsTxt content).
Proof.
  unfold GeoAuditor.auditLlmsTxt.
  destruct content as [[|c s]|]; try const_fits. cbv zeta.
  destruct (marked_line "# " _), (marked_line "> " _), (marked_line "## " _),
    (has_markdown_link _); const_fits.
Qed.

Lemma auditStructuredData_fits cr :
  status_fits (GeoAuditor.auditStructuredData cr).
Proof.
  unfold GeoAuditor.auditStructuredData. cbv zeta.
  destruct (_ =? 0)%nat; [const_fits|].
  apply fits_intro; cbn [score status];
    match goal with
    | |- context [Qle_bool 60 ?s] =>
        generalize s; intro raw; destruct (Qle_bool 60 raw) eqn:H60
    end; try discriminate.
  intros _. apply Qle_bool_iff in H60.
  apply Math_min_glb; [discriminate | exact H60].
Qed.

Lemma auditServerRendering_fits cr :
  status_fits (GeoAuditor.auditServerRendering cr).
Proof. apply coverage_item_fits. Qed.

Lemma auditMetaDescriptions_fits cr :
  status_fits (GeoAuditor.auditMetaDescriptions cr).
Proof. apply coverage_item_fits. Qed.

Lemma auditHeadingHierarchy_fits cr :
  status_fits (GeoAuditor.auditHeadingHierarchy cr).
Proof. apply coverage_item_fits. Qed.

Lemma auditOpenGraph_fits cr :
  status_fits (GeoAuditor.auditOpenGraph cr).
Proof. apply coverage_item_fits. Qed.

Lemma auditAiContentDirectives_fits cr :
  status_fits (GeoAuditor.auditAiContentDirectives cr).
Proof. apply scored_item_fits. Qed.

Lemma auditContentFreshness_fits env cr :
  status_fits (GeoAuditor.auditContentFreshness env cr).
Proof.
  unfold GeoAuditor.auditContentFreshness. cbv zeta.
  destruct (_ =? 0)%nat; [const_fits | apply scored_item_fits].
Qed.

Lemma auditContentDepth_fits cr :
  status_fits (GeoAuditor.auditContentDepth cr).
Proof.
  unfold GeoAuditor.auditContentDepth. cbv zeta.
  destruct (_ =? 0)%nat; [const_fits | apply scored_item_fits].
Qed.

Lemma auditAiPolicy_fits t j :
  status_fits (GeoAuditor.auditAiPolicy t j).
Proof.
  unfold GeoAuditor.auditAiPolicy. cbv zeta.
  destruct (truthy t), (truthy j); const_fits.
Qed.

Lemma auditAiBotBlocking_fits content :
  status_fits (GeoAuditor.auditAiBotBlocking content).
Proof.
  destruct content as [content|]; [|const_fits].
  destruct (auditAiBotBlocking_by_count content) as [Hs Hst].
  cbv zeta in Hs, Hst.
  apply fits_intro; rewrite Hs, Hst;
    destruct (_ =? 0)%nat; try discriminate;
    destruct (Qlt_bool (1 # 2) _) eqn:Hhalf; try discriminate.
  intros _. apply Qlt_bool_iff in Hhalf.
  apply (round_at_most 50). apply Math_max_lub; [discriminate|].
  change (inject_Z 50) with 50. lra.
Qed.

Lemma auditSearchIndexing_fits cr :
  status_fits (GeoAuditor.auditSearchIndexing cr).
Proof.
  unfold GeoAuditor.auditSearchIndexing. cbv zeta.
  apply fits_intro; cbn [score status];
    match goal with
    | |- context [Qeq_bool ?s 100] =>
        generalize s; intro s0; destruct (Qeq_bool s0 100) eqn:H100
    end; try discriminate.
  - intros _. apply Qeq_bool_iff in H100. rewrite H100. discriminate.
  - destruct (Qle_bool 50 s0); discriminate.
  - destruct (Qle_bool 50 s0) eqn:H50; [discriminate|].
    intros _. apply Qle_bool_false_iff in H50. now apply Qlt_le_weak.
  - destruct (Qle_bool 50 s0); discriminate.
Qed.

Lemma auditFAQContent_fits cr :
  status_fits (GeoAuditor.auditFAQContent cr).
Proof.
  destruct (auditFAQContent_by_count cr) as [Hs Hst]. cbv zeta in Hs, Hst.
  apply fits_intro; rewrite Hs, Hst;
    destruct (_ =? 0)%nat; try discriminate; try reflexivity;
    try (intros _; discriminate);
    destruct (Qle_bool 60 _) eqn:H60; try discriminate.
  intros _. now apply Qle_bool_iff.
Qed.

Lemma project_item_fits (item : AuditItem) :
  status_fits item -> status_fits (ComparisonReport.project_item item).
Proof.
  intro Hfit. unfold ComparisonReport.project_item.
  destruct (ComparisonReport.lookup _ _) as [imp|] eqn:Hl; [|exact Hfit].
  destruct (Qlt_bool _ _); [|exact Hfit].
  apply table_targets_in_range in Hl. destruct Hl as [H70 _].
  apply fits_intro; cbn [score status].
  - intros _. apply Qle_trans with 70; [discriminate | exact H70].
  - destruct (Qle_bool 70 _); discriminate.
  - destruct (Qle_bool 70 _); discriminate.
Qed.

Lemma audit_items_fit env cr :
  Forall status_fits (GeoAuditor.audit_items env cr).
Proof.
  unfold GeoAuditor.audit_items. cbv zeta.
  repeat apply Forall_cons; [..|apply Forall_nil].
  - exact (auditRobotsTxt_fits _).
  - exact (auditSitemap_fits _ _).
  - exact (auditLlmsTxt_fits _).
  - exact (auditStructuredData_fits _).
  - exact (auditServerRendering_fits _).
  - exact (auditAiBotBlocking_fits _).
  - exact (auditSearchIndexing_fits _).
  - exact (presence_item_fits _ _ _ _ _ _ _).
  - exact (auditAiPolicy_fits _ _).
  - exact (auditMetaDescriptions_fits _).
  - exact (auditHeadingHierarchy_fits _).
  - exact (auditContentFreshness_fits _ _).
  - exact (auditContentDepth_fits _).
  - exact (presence_item_fits _ _ _ _ _ _ _).
  - exact (presence_item_fits _ _ _ _ _ _ _).
  - exact (auditOpenGraph_fits _).
  - exact (auditAiContentDirectives_fits _).
  - exact (presence_item_fits _ _ _ _ _ _ _).
  - exact (presence_item_fits _ _ _ _ _ _ _).
  - exact (auditFAQContent_fits _).
Qed.

(** X18. In every finding of [auditSite], and in every finding of the
    projection of such an audit, the status fits the score: a pass has at
    least 60, a fail at most 50, and not_applicable goes with 0. *)
Theorem X18_status_fits_score (env : Env) (cr : SiteCrawlResult) :
  Forall status_fits (items (GeoAuditor.auditSite env cr))
  /\ Forall status_fits
       (items
          (ComparisonReport.generateProjectedAudit
             (GeoAuditor.auditSite env cr))).
Proof.
  change (items (GeoAuditor.auditSite env cr))
    with (GeoAuditor.audit_items env cr).
  split; [apply audit_items_fit|].
  unfold ComparisonReport.generateProjectedAudit. cbv zeta. cbn [items].
  change (items (GeoAuditor.auditSite env cr))
    with (GeoAuditor.audit_items env cr).
  rewrite Forall_map. eapply Forall_impl; [|apply audit_items_fit].
  exact project_item_fits.
Qed.

(** ** Comment and blank lines of robots.txt *)












(** The finding is a function of the list of blocked crawlers. *)
Lemma auditAiBotBlocking_of_blocked (c d : ascii) (s t : string) :
  GeoAuditor.blocked_crawlers (String c s)
  = GeoAuditor.blocked_crawlers (String d t) ->
  GeoAuditor.auditAiBotBlocking (Some (String c s))
  = GeoAuditor.auditAiBotBlocking (Some (String d t)).
Proof.
  intro H. unfold GeoAuditor.auditAiBotBlocking. cbv zeta. now rewrite H.
Qed.




(** ** Letter case of robots.txt *)

Ltac by_char c := destruct c as [[] [] [] [] [] [] [] []]; vm_compute; reflexivity.

Lemma lower_char_idem c : lower_char (lower_char c) = lower_char c.
Proof. by_char c. Qed.

Lemma is_space_lower c : is_space (lower_char c) = is_space c.
Proof. by_char c. Qed.

Lemma is_LF_lower c : (code (lower_char c) =? 10)%nat = (code c =? 10)%nat.
Proof. by_char c. Qed.

Lemma is_line_terminator_lower c :
  is_line_terminator (lower_char c) = is_line_terminator c.
Proof. by_char c. Qed.

Lemma is_slash_lower c : Ascii.eqb (lower_char c) "/" = Ascii.eqb c "/".
Proof. by_char c. Qed.

Lemma is_hash_lower c : Ascii.eqb "#" (lower_char c) = Ascii.eqb "#" c.
Proof. by_char c. Qed.

Lemma is_star_lower c : Ascii.eqb (lower_char c) "*" = Ascii.eqb c "*".
Proof. by_char c. Qed.

Lemma toLowerCase_idem s : toLowerCase (toLowerCase s) = toLowerCase s.
Proof.
  induction s as [|c r IH]; [reflexivity|].
  cbn [toLowerCase]. now rewrite lower_char_idem, IH.
Qed.

Lemma trimStart_lower s :
  trimStart (toLowerCase s) = toLowerCase (trimStart s).
Proof.
  induction s as [|c r IH]; [reflexivity|].
  cbn [toLowerCase trimStart]. rewrite is_space_lower.
  now destruct (is_space c).
Qed.

Lemma trimEnd_lower s : trimEnd (toLowerCase s) = toLowerCase (trimEnd s).
Proof.
  induction s as [|c r IH]; [reflexivity|].
  cbn [toLowerCase trimEnd]. rewrite IH, is_space_lower.
  destruct (trimEnd r); cbn [toLowerCase]; [|reflexivity].
  now destruct (is_space c).
Qed.

Lemma trim_lower s : trim (toLowerCase s) = toLowerCase (trim s).
Proof. unfold trim. now rewrite trimStart_lower, trimEnd_lower. Qed.

Lemma split_newline_lower s :
  split_newline (toLowerCase s) = map toLowerCase (split_newline s).
Proof.
  induction s as [|c r IH]; [reflexivity|].
  cbn [toLowerCase split_newline]. rewrite is_LF_lower, IH.
  destruct (code c =? 10)%nat; [reflexivity|].
  now destruct (split_newline r).
Qed.

Lemma lines_of_lower s :
  lines_of (toLowerCase s) = map toLowerCase (lines_of s).
Proof.
  unfold lines_of. rewrite split_newline_lower, !map_map.
  apply map_ext. intro l. apply trim_lower.
Qed.

Lemma after_prefix_ci_lower p s :
  after_prefix_ci p (toLowerCase s)
  = option_map toLowerCase (after_prefix_ci p s).
Proof.
  revert s. induction p as [|a p IH]; intro s; [now destruct s|].
  destruct s as [|b s]; [reflexivity|].
  cbn [toLowerCase after_prefix_ci]. rewrite lower_char_idem.
  destruct (Ascii.eqb a (lower_char b)); [apply IH|reflexivity].
Qed.

Lemma any_char_lower p s :
  (forall c, p (lower_char c) = p c) ->
  any_char p (toLowerCase s) = any_char p s.
Proof.
  intro H. induction s as [|c r IH]; [reflexivity|].
  cbn [toLowerCase any_char]. now rewrite H, IH.
Qed.

Lemma all_chars_lower p s :
  (forall c, p (lower_char c) = p c) ->
  all_chars p (toLowerCase s) = all_chars p s.
Proof.
  intro H. induction s as [|c r IH]; [reflexivity|].
  cbn [toLowerCase all_chars]. now rewrite H, IH.
Qed.

Lemma agentMatch_lower line :
  agentMatch (toLowerCase line) = option_map toLowerCase (agentMatch line).
Proof.
  unfold agentMatch. rewrite after_prefix_ci_lower.
  destruct (after_prefix_ci "user-agent:" line) as [rest|]; [|reflexivity].
  cbn [option_map]. cbv zeta. rewrite trimStart_lower.
  destruct (trimStart rest) as [|c r] eqn:E; [reflexivity|].
  rewrite (any_char_lower _ _ is_line_terminator_lower).
  cbn [toLowerCase].
  now destruct (any_char is_line_terminator (String c r)).
Qed.

Lemma full_path_directive_lower d line :
  full_path_directive d (toLowerCase line) = full_path_directive d line.
Proof.
  unfold full_path_directive. rewrite after_prefix_ci_lower.
  destruct (after_prefix_ci d line) as [rest|]; [|reflexivity].
  cbn [option_map]. rewrite trimStart_lower.
  destruct (trimStart rest) as [|c r]; [reflexivity|].
  cbn [toLowerCase].
  now rewrite is_slash_lower, (all_chars_lower _ _ is_space_lower).
Qed.

Lemma length_lower s : String.length (toLowerCase s) = String.length s.
Proof.
  induction s as [|c r IH]; [reflexivity|].
  cbn [toLowerCase String.length]. now rewrite IH.
Qed.

Lemma is_directive_line_lower line :
  is_directive_line (toLowerCase line) = is_directive_line line.
Proof.
  unfold is_directive_line. rewrite length_lower. f_equal. f_equal.
  destruct line as [|c r]; [reflexivity|].
  cbn [toLowerCase startsWith]. rewrite is_hash_lower. now destruct r.
Qed.

Lemma hasExplicitAllow_from_lower botName lines flag :
  GeoAuditor.hasExplicitAllow_from botName (map toLowerCase lines) flag
  = GeoAuditor.hasExplicitAllow_from botName lines flag.
Proof.
  revert flag. induction lines as [|x r IH]; intro flag; [reflexivity|].
  cbn [map GeoAuditor.hasExplicitAllow_from].
  rewrite agentMatch_lower.
  destruct (agentMatch x) as [g|]; cbn [option_map].
  - rewrite trim_lower, toLowerCase_idem. apply IH.
  - unfold allowMatch. rewrite full_path_directive_lower.
    rewrite is_directive_line_lower.
    destruct (flag && full_path_directive "allow:" x); [reflexivity|].
    destruct (is_directive_line x); apply IH.
Qed.

Lemma hasExplicitAllow_lower content bot :
  GeoAuditor.hasExplicitAllow (toLowerCase content) bot
  = GeoAuditor.hasExplicitAllow content bot.
Proof.
  unfold GeoAuditor.hasExplicitAllow.
  rewrite lines_of_lower. apply hasExplicitAllow_from_lower.
Qed.

Lemma is_wildcard_lower agent :
  String.eqb (toLowerCase agent) "*" = String.eqb agent "*".
Proof.
  destruct agent as [|c [|d r]]; try reflexivity.
  - cbn [toLowerCase String.eqb]. now rewrite is_star_lower.
  - cbn [toLowerCase String.eqb].
    rewrite is_star_lower. now destruct (Ascii.eqb c "*").
Qed.

Lemma blocked_by_lower content agent :
  GeoAuditor.blocked_by (toLowerCase content) (toLowerCase agent)
  = GeoAuditor.blocked_by content agent.
Proof.
  unfold GeoAuditor.blocked_by.
  rewrite is_wildcard_lower, toLowerCase_idem.
  destruct (String.eqb agent "*"); [|reflexivity].
  apply filter_ext. intro bot. now rewrite hasExplicitAllow_lower.
Qed.

Lemma flat_map_blocked_by_lower content agents :
  flat_map (GeoAuditor.blocked_by (toLowerCase content))
    (map toLowerCase agents)
  = flat_map (GeoAuditor.blocked_by content) agents.
Proof.
  induction agents as [|a r IH]; [reflexivity|].
  cbn [map flat_map]. now rewrite blocked_by_lower, IH.
Qed.

Lemma scan_line_lower content st line :
  GeoAuditor.scan_line (toLowerCase content)
    (GeoAuditor.mkScan (map toLowerCase (GeoAuditor.currentAgents st))
       (GeoAuditor.blockedBots st))
    (toLowerCase line)
  = let st' := GeoAuditor.scan_line content st line in
    GeoAuditor.mkScan (map toLowerCase (GeoAuditor.currentAgents st'))
      (GeoAuditor.blockedBots st').
Proof.
  cbv zeta. unfold GeoAuditor.scan_line.
  rewrite agentMatch_lower.
  destruct (agentMatch line) as [g|]; cbn [option_map].
  - cbn [GeoAuditor.currentAgents GeoAuditor.blockedBots].
    now rewrite map_app, trim_lower.
  - cbv zeta. cbn [GeoAuditor.currentAgents GeoAuditor.blockedBots].
    unfold disallowMatch.
    rewrite full_path_directive_lower, is_directive_line_lower,
      length_map, flat_map_blocked_by_lower.
    now destruct (is_directive_line line).
Qed.

Lemma scan_lines_lower content lines st :
  GeoAuditor.scan_lines (toLowerCase content)
    (GeoAuditor.mkScan (map toLowerCase (GeoAuditor.currentAgents st))
       (GeoAuditor.blockedBots st))
    (map toLowerCase lines)
  = let st' := GeoAuditor.scan_lines content st lines in
    GeoAuditor.mkScan (map toLowerCase (GeoAuditor.currentAgents st'))
      (GeoAuditor.blockedBots st').
Proof.
  revert st. induction lines as [|x r IH]; intro st; [reflexivity|].
  unfold GeoAuditor.scan_lines in *. cbn [map fold_left].
  rewrite (scan_line_lower content st x). cbv zeta. apply IH.
Qed.

Lemma blocked_crawlers_lower content :
  GeoAuditor.blocked_crawlers (toLowerCase content)
  = GeoAuditor.blocked_crawlers content.
Proof.
  unfold GeoAuditor.blocked_crawlers. rewrite lines_of_lower.
  pose proof (scan_lines_lower content (lines_of content)
                (GeoAuditor.mkScan [] [])) as H.
  cbn [GeoAuditor.currentAgents GeoAuditor.blockedBots map] in H.
  rewrite H. reflexivity.
Qed.

(** X20. The AI bot blocking finding does not depend on the letter case of
    robots.txt: the file in lower case gives the same finding, blocked list
    included; and an explicit Allow is found for a crawler whatever the case
    in which the file or the caller writes its name. *)
Theorem X20_letter_case_ignored (content : option string) (bot : string) :
  GeoAuditor.auditAiBotBlocking (option_map toLowerCase content)
  = GeoAuditor.auditAiBotBlocking content
  /\ (forall text,
        GeoAuditor.hasExplicitAllow (toLowerCase text) (toLowerCase bot)
        = GeoAuditor.hasExplicitAllow text bot).
Proof.
  split.
  - destruct content as [[|c s]|]; try reflexivity.
    cbn [option_map toLowerCase].
    apply auditAiBotBlocking_of_blocked.
    exact (blocked_crawlers_lower (String c s)).
  - intro text. rewrite hasExplicitAllow_lower.
    unfold GeoAuditor.hasExplicitAllow.
    generalize (lines_of text) false.
    induction l as [|x r IH]; intro flag; [reflexivity|].
    cbn [GeoAuditor.hasExplicitAllow_from]. rewrite toLowerCase_idem.
    destruct (agentMatch x); [apply IH|].
    destruct (flag && allowMatch x); [reflexivity|].
    destruct (is_directive_line x); apply IH.
Qed.
